(** * Video image labeler: geometry, annotation store, timeline gestures, sampling

    A shallow embedding of [src/components/video-editor.tsx] and of the
    [AnnotationTimeline] component it renders, with the properties the
    specification states about them.

    Numbers.  A JavaScript [number] is an IEEE-754 binary64 value.  The
    algebraic properties below are stated over exact rational arithmetic
    ([Q]), the arithmetic the specification reasons in.  The timestamp loop
    of [sampleSelection] is written once, over an interface of the few
    numeric operations it uses, and instantiated twice: with exact
    rationals, and with binary64 values (the Standard Library's
    [SpecFloat]), because whether that loop makes progress depends on
    rounding. *)

From Stdlib Require Import ZArith QArith Qabs Qround Lqa Lia.
From Stdlib Require Import Bool List String Ascii Permutation.
From Stdlib Require Import DecimalString DecimalZ SpecFloat.
Import ListNotations.

Set Implicit Arguments.

(* ================================================================== *)
(** * Numbers *)
(* ================================================================== *)

(** The operations on [number] that the sampling code uses. [nlit] reads a
    decimal literal of the source, given as the exact fraction it denotes. *)
Class JsNumber (num : Type) : Type := {
  nlit : Q -> num;
  nadd : num -> num -> num;
  ndiv : num -> num -> num;
  nleb : num -> num -> bool;          (* a <= b *)
  Math_min : num -> num -> num;
  Math_max : num -> num -> num
}.

(** ** Exact rationals *)

Definition Qltb (a b : Q) : bool := negb (Qle_bool b a).

Definition Qmin_js (a b : Q) : Q := if Qle_bool a b then a else b.
Definition Qmax_js (a b : Q) : Q := if Qle_bool a b then b else a.

#[export] Instance ExactNumber : JsNumber Q := {
  nlit := fun q => q;
  nadd := Qplus;
  ndiv := Qdiv;
  nleb := Qle_bool;
  Math_min := Qmin_js;
  Math_max := Qmax_js
}.

(** ** IEEE-754 binary64 *)

Module Binary64.

Definition prec : Z := 53.
Definition emax : Z := 1024.

Definition float : Type := spec_float.

(** The double nearest to an integer. *)
Definition ofZ (z : Z) : float := binary_normalize prec emax z 0 false.

Definition add : float -> float -> float := SFadd prec emax.
Definition div : float -> float -> float := SFdiv prec emax.

(** A decimal literal [n/d] with [n] and [d] below [2^53]: the correctly
    rounded quotient of two exactly represented integers is the double
    nearest to the literal. *)
Definition lit (q : Q) : float := div (ofZ (Qnum q)) (ofZ (Zpos (Qden q))).

Definition isNaN (x : float) : bool :=
  match x with S754_nan => true | _ => false end.

Definition isNegZero (x : float) : bool :=
  match x with S754_zero true => true | _ => false end.

(** [Math.min]: NaN if either argument is NaN; [-0] is below [+0]. *)
Definition min (a b : float) : float :=
  if isNaN a || isNaN b then S754_nan
  else if SFltb a b then a
  else if SFltb b a then b
  else if isNegZero a then a else b.

(** [Math.max]: NaN if either argument is NaN; [+0] is above [-0]. *)
Definition max (a b : float) : float :=
  if isNaN a || isNaN b then S754_nan
  else if SFltb a b then b
  else if SFltb b a then a
  else if isNegZero a then b else a.

End Binary64.

#[export] Instance DoubleNumber : JsNumber Binary64.float := {
  nlit := Binary64.lit;
  nadd := Binary64.add;
  ndiv := Binary64.div;
  nleb := SFleb;
  Math_min := Binary64.min;
  Math_max := Binary64.max
}.

(** ** Helpers of the source *)

(** [function clamp(val, min, max) { return Math.min(max, Math.max(min, val)) }] *)
Definition clamp {num} `{JsNumber num} (val min max : num) : num :=
  Math_min max (Math_max min val).

(** [Math.round]: the nearest integer, ties towards plus infinity. *)
Definition Math_round (x : Q) : Z := Qfloor (x + (1 # 2)).

(** A template literal renders an integer-valued number in decimal. *)
Definition showZ (z : Z) : string := NilZero.string_of_int (Z.to_int z).

(* ================================================================== *)
(** * Sampling: target timestamps (sampleSelection, lines 464-473) *)
(* ================================================================== *)

Section SampleTimes.

Context {num : Type} `{JsNumber num}.

(** [while (t <= end + 1e-6) { times.push(Math.min(t, end)); t += step }]
    One unit of [fuel] per evaluation of the loop condition; [None] when
    the fuel runs out before the condition turns false. *)
Fixpoint timesLoop (fuel : nat) (end_ step t : num) (times : list num)
  : option (list num) :=
  match fuel with
  | O => None
  | S fuel' =>
      if nleb t (nadd end_ (nlit (1 # 1000000)))
      then timesLoop fuel' end_ step (nadd t step)
                     (times ++ [Math_min t end_])
      else Some times
  end.

(** The timestamps of a run over [selection] at rate [samplingHz]. *)
Definition sampleTimes (fuel : nat) (selStart selEnd duration samplingHz : num)
  : option (list num) :=
  let start := clamp selStart (nlit 0) duration in
  let end_ := clamp selEnd (nlit 0) duration in
  let hz := Math_max (nlit (1 # 10)) samplingHz in
  let step := ndiv (nlit 1) hz in
  timesLoop fuel end_ step start [].

End SampleTimes.

Open Scope Q_scope.
Open Scope string_scope.

(* ================================================================== *)
(** * Data model *)
(* ================================================================== *)

(** [type TriangleAnnotation] *)
Record TriangleAnnotation : Type := {
  id : string;
  x : Q;                      (* normalized [0..1] *)
  y : Q;                      (* normalized [0..1] *)
  size : Q;                   (* relative to min(videoWidth, videoHeight) *)
  color : string;
  strokeWidth : Q;
  start : Q;
  end_ : Q;
  label : option string
}.

(** [type TimelineAnnotation] *)
Record TimelineAnnotation : Type := {
  tl_id : string;
  tl_start : Q;
  tl_end : Q;
  tl_color : string;
  tl_label : option string
}.

(** [type TriangleTrack] *)
Record TriangleTrack : Type := {
  triangleId : string;
  triangleLabel : string;
  track_color : string;
  track_annotations : list TimelineAnnotation
}.

(** What a captured image shows: the media position that was on display,
    the canvas size, and the triangles stroked over it, in drawing order. *)
Record Blob : Type := {
  shownAt : Q;
  canvasSize : Q * Q;
  burned : list TriangleAnnotation
}.

(** [type FrameInfo] *)
Record FrameInfo : Type := {
  index : nat;
  time : Q;
  blob : Blob;
  objectUrl : string
}.

(** The argument of [toast]. *)
Record Toast : Type := {
  title : string;
  description : string;
  variant : string           (* "default" when the call gives none *)
}.

(** The fields of the [HTMLVideoElement] that the editor touches. *)
Record Video : Type := {
  v_currentTime : Q;
  v_paused : bool;
  v_playbackRate : Q;
  videoWidth : Q;
  videoHeight : Q
}.

(** What the editor does to its collaborators, oldest first. *)
Inductive Effect : Type :=
| Toasted (t : Toast)
| Revoked (url : string)
| SeekRequested (target : Q).

(** The state of [VideoEditor]: its React state, the video element behind
    [videoRef] and the log of effects. *)
Record Editor : Type := {
  videoRef : option Video;
  duration : Q;
  videoSize : Q * Q;                   (* width, height *)
  currentTime : Q;
  isPlaying : bool;
  annotations : list TriangleAnnotation;
  overlayEnabled : bool;
  selectedId : option string;
  selection : option (Q * Q);          (* start, end *)
  samplingHz : Q;
  burnInAnnotation : bool;
  frames : list FrameInfo;
  sampling : bool;
  progress : Z;
  sequenceId : string;
  effects : list Effect
}.

(** ** Faults

    Exact rationals have no infinities and no NaN, so a division whose
    divisor is zero has no value in this model; reading a property of
    [undefined] throws a [TypeError].  Code that can do either runs in the
    [Result] monad. *)
Inductive Fault : Type :=
| DivisionByZero
| TypeError.

Inductive Result (A : Type) : Type :=
| Ok (a : A)
| Raise (f : Fault).
Arguments Ok {A} a.
Arguments Raise {A} f.

Definition bind {A B} (r : Result A) (k : A -> Result B) : Result B :=
  match r with
  | Ok a => k a
  | Raise f => Raise f
  end.

Notation "'let*' v ':=' r 'in' k" := (bind r (fun v => k))
  (at level 10, v name, r at level 100, k at level 200).

Definition divide (a b : Q) : Result Q :=
  if Qeq_bool b 0 then Raise DivisionByZero else Ok (a / b).

(* ================================================================== *)
(** * Geometry *)
(* ================================================================== *)

(** [Math.sqrt(3)] is the double [1.7320508075688772], that is
    [7800463371553962 / 2^52]. *)
Definition sqrt3 : Q := 7800463371553962 # 4503599627370496.

(** [function isPointInTriangle(px, py, triangle, videoWidth, videoHeight)] *)
Definition isPointInTriangle (px py : Q) (triangle : TriangleAnnotation)
    (videoWidth videoHeight : Q) : Result bool :=
  let minDim := Math_min videoWidth videoHeight in
  let sideLength := size triangle * minDim in
  let* triangleHeight := divide (sideLength * sqrt3) 2 in
  let* halfBase := divide sideLength 2 in
  let* centroidOffset := divide triangleHeight 3 in
  let centerX := x triangle * videoWidth in
  let centerY := y triangle * videoHeight in
  let ax := centerX in
  let ay := centerY - (triangleHeight - centroidOffset) in
  let bx := centerX - halfBase in
  let by_ := centerY + centroidOffset in
  let cx := centerX + halfBase in
  let cy := centerY + centroidOffset in
  let clickX := px * videoWidth in
  let clickY := py * videoHeight in
  let denom := (by_ - cy) * (ax - cx) + (cx - bx) * (ay - cy) in
  if Qltb (Qabs denom) (1 # 10000000000) then Ok false
  else
    let* a := divide ((by_ - cy) * (clickX - cx) + (cx - bx) * (clickY - cy)) denom in
    let* b := divide ((cy - ay) * (clickX - cx) + (ax - cx) * (clickY - cy)) denom in
    let c := 1 - a - b in
    Ok (Qle_bool 0 a && Qle_bool 0 b && Qle_bool 0 c).

(** The points [p1], [p2], [p3] that [drawTriangleOnContext(ctx, width,
    height, tri)] strokes: top, bottom left, bottom right. *)
Definition triangleVertices (tri : TriangleAnnotation) (width height : Q)
  : Result ((Q * Q) * (Q * Q) * (Q * Q)) :=
  let centerX := x tri * width in
  let centerY := y tri * height in
  let minDim := Math_min width height in
  let sideLength := size tri * minDim in
  let* triangleHeight := divide (sideLength * sqrt3) 2 in
  let* halfBase := divide sideLength 2 in
  let* centroidOffset := divide triangleHeight 3 in
  let p1 := (centerX, centerY - (triangleHeight - centroidOffset)) in
  let p2 := (centerX - halfBase, centerY + centroidOffset) in
  let p3 := (centerX + halfBase, centerY + centroidOffset) in
  Ok (p1, p2, p3).

(** [ctx.lineWidth] in [drawTriangleOnContext]. *)
Definition lineWidth (tri : TriangleAnnotation) (width height : Q) : Result Q :=
  let minDim := Math_min width height in
  let* scaled := divide (strokeWidth tri * minDim) 1080 in
  Ok (Math_max 1 scaled).

(** [currentTime >= a.start && currentTime <= a.end] *)
Definition activeAt (t : Q) (a : TriangleAnnotation) : bool :=
  Qle_bool (start a) t && Qle_bool t (end_ a).

(** [for (const annotation of activeAnnotations) { if (...) return annotation }
    return null] *)
Fixpoint firstContaining (px py : Q) (videoWidth videoHeight : Q)
    (candidates : list TriangleAnnotation) : Result (option TriangleAnnotation) :=
  match candidates with
  | [] => Ok None
  | annotation :: rest =>
      let* hit := isPointInTriangle px py annotation videoWidth videoHeight in
      if hit then Ok (Some annotation)
      else firstContaining px py videoWidth videoHeight rest
  end.

(** [function findTriangleAtPosition(x, y, currentTime, annotations,
    videoWidth, videoHeight)] *)
Definition findTriangleAtPosition (px py currentTime : Q)
    (annotations : list TriangleAnnotation) (videoWidth videoHeight : Q)
    : Result (option TriangleAnnotation) :=
  let activeAnnotations := rev (filter (activeAt currentTime) annotations) in
  firstContaining px py videoWidth videoHeight activeAnnotations.

(* ================================================================== *)
(** * Tracks *)
(* ================================================================== *)

(** [`${Math.round(x * 100)}_${Math.round(y * 100)}_${color}`] *)
Definition triangleKey (x y : Q) (color : string) : string :=
  showZ (Math_round (x * 100)) ++ "_" ++ showZ (Math_round (y * 100)) ++ "_" ++ color.

Definition keyOf (a : TriangleAnnotation) : string :=
  triangleKey (x a) (y a) (color a).

(** A JavaScript [Map] with string keys: the entries in insertion order. *)
Definition JsMap (V : Type) : Type := list (string * V).

Fixpoint Map_get {V} (k : string) (m : JsMap V) : option V :=
  match m with
  | [] => None
  | (k', v) :: m' => if String.eqb k k' then Some v else Map_get k m'
  end.

Definition Map_has {V} (k : string) (m : JsMap V) : bool :=
  match Map_get k m with Some _ => true | None => false end.

(** [set] keeps the position of a key that is present and appends a new one. *)
Fixpoint Map_set {V} (k : string) (v : V) (m : JsMap V) : JsMap V :=
  match m with
  | [] => [(k, v)]
  | (k', v') :: m' =>
      if String.eqb k k' then (k', v) :: m' else (k', v') :: Map_set k v m'
  end.

(** The body of [annotations.forEach(annotation => ...)]; the [push] on the
    array held by the map is a [set] of the extended array. *)
Definition groupStep (triangleMap : Result (JsMap (list TriangleAnnotation)))
    (annotation : TriangleAnnotation) : Result (JsMap (list TriangleAnnotation)) :=
  let* m := triangleMap in
  let triangleId := keyOf annotation in
  let m1 := if negb (Map_has triangleId m) then Map_set triangleId [] m else m in
  match Map_get triangleId m1 with
  | Some arr => Ok (Map_set triangleId (arr ++ [annotation])%list m1)
  | None => Raise TypeError
  end.

(** [Array.prototype.sort] is stable; [(a, b) => a.start - b.start]. *)
Fixpoint insertByStart (a : TriangleAnnotation) (l : list TriangleAnnotation)
  : list TriangleAnnotation :=
  match l with
  | [] => [a]
  | b :: l' =>
      if Qle_bool (start a) (start b) then a :: b :: l'
      else b :: insertByStart a l'
  end.

Definition sortByStart (l : list TriangleAnnotation) : list TriangleAnnotation :=
  fold_right insertByStart [] l.

Definition toTimeline (annotation : TriangleAnnotation) : TimelineAnnotation :=
  {| tl_id := id annotation;
     tl_start := start annotation;
     tl_end := end_ annotation;
     tl_color := color annotation;
     tl_label := label annotation |}.

(** [firstAnnotation.label || `Triangle (..%, ..%)`]: an absent or empty
    label gives the default. *)
Definition trackLabel (firstAnnotation : TriangleAnnotation) : string :=
  let fallback :=
    "Triangle (" ++ showZ (Math_round (x firstAnnotation * 100)) ++ "%, "
      ++ showZ (Math_round (y firstAnnotation * 100)) ++ "%)" in
  match label firstAnnotation with
  | Some l => if String.eqb l "" then fallback else l
  | None => fallback
  end.

(** The body of [triangleMap.forEach((triangleAnnotations, triangleId) => ...)].
    The array sorted in place is the one the map holds, not the argument of
    [createTriangleTracks]. *)
Definition trackOf (entry : string * list TriangleAnnotation) : Result TriangleTrack :=
  let '(triangleId, triangleAnnotations) := entry in
  let sorted := sortByStart triangleAnnotations in
  match sorted with
  | [] => Raise TypeError
  | firstAnnotation :: _ =>
      Ok {| triangleId := triangleId;
            triangleLabel := trackLabel firstAnnotation;
            track_color := color firstAnnotation;
            track_annotations := map toTimeline sorted |}
  end.

Fixpoint tracksOf (entries : JsMap (list TriangleAnnotation))
  : Result (list TriangleTrack) :=
  match entries with
  | [] => Ok []
  | entry :: rest =>
      let* track := trackOf entry in
      let* tracks := tracksOf rest in
      Ok (track :: tracks)
  end.

(** [function createTriangleTracks(annotations)] *)
Definition createTriangleTracks (annotations : list TriangleAnnotation)
  : Result (list TriangleTrack) :=
  let* triangleMap := fold_left groupStep annotations (Ok []) in
  tracksOf triangleMap.

(* ================================================================== *)
(** * Editor state updates *)
(* ================================================================== *)

Definition setVideo (v : option Video) (ed : Editor) : Editor :=
  {| videoRef := v; duration := duration ed; videoSize := videoSize ed;
     currentTime := currentTime ed; isPlaying := isPlaying ed;
     annotations := annotations ed; overlayEnabled := overlayEnabled ed;
     selectedId := selectedId ed; selection := selection ed;
     samplingHz := samplingHz ed; burnInAnnotation := burnInAnnotation ed;
     frames := frames ed; sampling := sampling ed; progress := progress ed;
     sequenceId := sequenceId ed; effects := effects ed |}.

Definition setIsPlaying (b : bool) (ed : Editor) : Editor :=
  {| videoRef := videoRef ed; duration := duration ed; videoSize := videoSize ed;
     currentTime := currentTime ed; isPlaying := b;
     annotations := annotations ed; overlayEnabled := overlayEnabled ed;
     selectedId := selectedId ed; selection := selection ed;
     samplingHz := samplingHz ed; burnInAnnotation := burnInAnnotation ed;
     frames := frames ed; sampling := sampling ed; progress := progress ed;
     sequenceId := sequenceId ed; effects := effects ed |}.

Definition setAnnotations (l : list TriangleAnnotation) (ed : Editor) : Editor :=
  {| videoRef := videoRef ed; duration := duration ed; videoSize := videoSize ed;
     currentTime := currentTime ed; isPlaying := isPlaying ed;
     annotations := l; overlayEnabled := overlayEnabled ed;
     selectedId := selectedId ed; selection := selection ed;
     samplingHz := samplingHz ed; burnInAnnotation := burnInAnnotation ed;
     frames := frames ed; sampling := sampling ed; progress := progress ed;
     sequenceId := sequenceId ed; effects := effects ed |}.

Definition setSelectedId (s : option string) (ed : Editor) : Editor :=
  {| videoRef := videoRef ed; duration := duration ed; videoSize := videoSize ed;
     currentTime := currentTime ed; isPlaying := isPlaying ed;
     annotations := annotations ed; overlayEnabled := overlayEnabled ed;
     selectedId := s; selection := selection ed;
     samplingHz := samplingHz ed; burnInAnnotation := burnInAnnotation ed;
     frames := frames ed; sampling := sampling ed; progress := progress ed;
     sequenceId := sequenceId ed; effects := effects ed |}.

Definition setSelection (s : option (Q * Q)) (ed : Editor) : Editor :=
  {| videoRef := videoRef ed; duration := duration ed; videoSize := videoSize ed;
     currentTime := currentTime ed; isPlaying := isPlaying ed;
     annotations := annotations ed; overlayEnabled := overlayEnabled ed;
     selectedId := selectedId ed; selection := s;
     samplingHz := samplingHz ed; burnInAnnotation := burnInAnnotation ed;
     frames := frames ed; sampling := sampling ed; progress := progress ed;
     sequenceId := sequenceId ed; effects := effects ed |}.

Definition setFrames (l : list FrameInfo) (ed : Editor) : Editor :=
  {| videoRef := videoRef ed; duration := duration ed; videoSize := videoSize ed;
     currentTime := currentTime ed; isPlaying := isPlaying ed;
     annotations := annotations ed; overlayEnabled := overlayEnabled ed;
     selectedId := selectedId ed; selection := selection ed;
     samplingHz := samplingHz ed; burnInAnnotation := burnInAnnotation ed;
     frames := l; sampling := sampling ed; progress := progress ed;
     sequenceId := sequenceId ed; effects := effects ed |}.

Definition setSampling (b : bool) (ed : Editor) : Editor :=
  {| videoRef := videoRef ed; duration := duration ed; videoSize := videoSize ed;
     currentTime := currentTime ed; isPlaying := isPlaying ed;
     annotations := annotations ed; overlayEnabled := overlayEnabled ed;
     selectedId := selectedId ed; selection := selection ed;
     samplingHz := samplingHz ed; burnInAnnotation := burnInAnnotation ed;
     frames := frames ed; sampling := b; progress := progress ed;
     sequenceId := sequenceId ed; effects := effects ed |}.

Definition setProgress (p : Z) (ed : Editor) : Editor :=
  {| videoRef := videoRef ed; duration := duration ed; videoSize := videoSize ed;
     currentTime := currentTime ed; isPlaying := isPlaying ed;
     annotations := annotations ed; overlayEnabled := overlayEnabled ed;
     selectedId := selectedId ed; selection := selection ed;
     samplingHz := samplingHz ed; burnInAnnotation := burnInAnnotation ed;
     frames := frames ed; sampling := sampling ed; progress := p;
     sequenceId := sequenceId ed; effects := effects ed |}.

Definition perform (es : list Effect) (ed : Editor) : Editor :=
  {| videoRef := videoRef ed; duration := duration ed; videoSize := videoSize ed;
     currentTime := currentTime ed; isPlaying := isPlaying ed;
     annotations := annotations ed; overlayEnabled := overlayEnabled ed;
     selectedId := selectedId ed; selection := selection ed;
     samplingHz := samplingHz ed; burnInAnnotation := burnInAnnotation ed;
     frames := frames ed; sampling := sampling ed; progress := progress ed;
     sequenceId := sequenceId ed; effects := (effects ed ++ es)%list |}.

Definition toast (title description variant : string) (ed : Editor) : Editor :=
  perform [Toasted {| title := title; description := description;
                      variant := variant |}] ed.

(* ================================================================== *)
(** * Annotation store *)
(* ================================================================== *)

Definition defaultAnnoDuration : Q := 3.
Definition defaultSize : Q := 3 # 100.
Definition defaultColor : string := "#c0c5ce".
Definition defaultStrokeWidth : Q := 5.

(** [a || b] on numbers: [b] when [a] is zero. *)
Definition orElse (a b : Q) : Q := if Qeq_bool a 0 then b else a.

(** [function addAnnotationAt(xNorm, yNorm)]; [uuid] is what [getUUID()]
    returns in this call. *)
Definition addAnnotationAt (uuid : string) (xNorm yNorm : Q) (ed : Editor) : Editor :=
  let start := currentTime ed in
  let end_ := clamp (currentTime ed + defaultAnnoDuration) 0
                    (orElse (duration ed) (currentTime ed + defaultAnnoDuration)) in
  let x' := clamp xNorm 0 1 in
  let y' := clamp yNorm 0 1 in
  let triangleId := triangleKey x' y' defaultColor in
  let existingTriangle :=
    find (fun a => String.eqb (triangleKey (x a) (y a) (color a)) triangleId)
         (annotations ed) in
  match existingTriangle with
  | Some existing =>
      toast "Triangle already exists"
            "A triangle already exists at this position. Selected existing triangle."
            "default"
            (setSelectedId (Some (id existing)) ed)
  | None =>
      let anno := {| id := uuid; x := x'; y := y'; size := defaultSize;
                     color := defaultColor; strokeWidth := defaultStrokeWidth;
                     start := start; end_ := end_; label := None |} in
      setSelectedId (Some (id anno))
        (setAnnotations (annotations ed ++ [anno])%list ed)
  end.

(** [next ?? current] *)
Definition orDefault (next : option Q) (current : Q) : Q :=
  match next with Some v => v | None => current end.

(** [function updateAnnoTime(id, next)]; an absent field of [next] is [None]. *)
Definition updateAnnoTime (target : string) (nextStart nextEnd : option Q)
    (ed : Editor) : Editor :=
  setAnnotations
    (map (fun a =>
            if String.eqb (id a) target
            then {| id := id a; x := x a; y := y a; size := size a;
                    color := color a; strokeWidth := strokeWidth a;
                    start := orDefault nextStart (start a);
                    end_ := orDefault nextEnd (end_ a);
                    label := label a |}
            else a)
         (annotations ed))
    ed.

(** [function onTimelineSeek(t)] *)
Definition onTimelineSeek (t : Q) (ed : Editor) : Editor :=
  match videoRef ed with
  | None => ed
  | Some video =>
      setVideo (Some {| v_currentTime := clamp t 0 (duration ed);
                        v_paused := v_paused video;
                        v_playbackRate := v_playbackRate video;
                        videoWidth := videoWidth video;
                        videoHeight := videoHeight video |}) ed
  end.

(* ================================================================== *)
(** * Timeline gestures (AnnotationTimeline) *)
(* ================================================================== *)

(** [type DragState] *)
Inductive DragState : Type :=
| DragNone
| DragSeek (startX : Q)
| DragMove (target : string) (startX origStart origEnd : Q)
| DragResizeLeft (target : string) (startX origStart origEnd : Q)
| DragResizeRight (target : string) (startX origStart origEnd : Q)
| DragSelectRange (startX anchorTime : Q)
| DragSelectionMove (startX origStart origEnd : Q)
| DragSelectionLeft (startX origStart origEnd : Q)
| DragSelectionRight (startX origStart origEnd : Q).

(** The part of [getBoundingClientRect()] that is read. *)
Record Rect : Type := {
  rect_left : Q;
  rect_width : Q
}.

(** The props of the component that the move handler reads. *)
Record TimelineProps : Type := {
  p_duration : Q;
  p_selection : option (Q * Q);
  p_minClipLen : Q
}.

(** A call of one of the callbacks passed in by the parent. *)
Inductive Callback : Type :=
| OnSeek (t : Q)
| OnChangeTime (target : string) (nextStart nextEnd : option Q)
| OnSelectionChange (s : option (Q * Q)).

(** [function xToTime(clientX, element)]; the divisor is at least 1. *)
Definition xToTime (props : TimelineProps) (clientX : Q) (rect : Rect) : Q :=
  let ratio := (clientX - rect_left rect) / Math_max 1 (rect_width rect) in
  clamp (ratio * p_duration props) 0 (p_duration props).

(** [function onScrubPointerMove(e)]: the callbacks it calls, in order.
    [container] is [containerRef.current] measured at this event. *)
Definition onScrubPointerMove (props : TimelineProps) (drag : DragState)
    (container : option Rect) (clientX : Q) : list Callback :=
  match container with
  | None => []
  | Some rect =>
      let duration := p_duration props in
      let minClipLen := p_minClipLen props in
      let dt startX := ((clientX - startX) / Math_max 1 (rect_width rect)) * duration in
      match drag with
      | DragNone => []
      | DragSeek _ =>
          let t := xToTime props clientX rect in
          [OnSeek t]
      | DragSelectRange _ anchorTime =>
          let t := xToTime props clientX rect in
          let s := Math_min anchorTime t in
          let en := Math_max anchorTime t in
          [OnSelectionChange (Some (s, en))]
      | DragMove target startX origStart origEnd =>
          let len := origEnd - origStart in
          let newStart := clamp (origStart + dt startX) 0 (Math_max 0 (duration - len)) in
          let newEnd := newStart + len in
          [OnChangeTime target (Some newStart) (Some newEnd)]
      | DragResizeLeft target startX origStart origEnd =>
          let newStart := clamp (origStart + dt startX) 0 (origEnd - minClipLen) in
          [OnChangeTime target (Some newStart) None]
      | DragResizeRight target startX origStart origEnd =>
          let newEnd := clamp (origEnd + dt startX) (origStart + minClipLen) duration in
          [OnChangeTime target None (Some newEnd)]
      | DragSelectionMove startX origStart origEnd =>
          match p_selection props with
          | None => []
          | Some _ =>
              let len := origEnd - origStart in
              let newStart := clamp (origStart + dt startX) 0 (Math_max 0 (duration - len)) in
              let newEnd := newStart + len in
              [OnSelectionChange (Some (newStart, newEnd))]
          end
      | DragSelectionLeft startX origStart origEnd =>
          match p_selection props with
          | None => []
          | Some selection =>
              let newStart := clamp (origStart + dt startX) 0 (origEnd - minClipLen) in
              [OnSelectionChange (Some (newStart, snd selection))]
          end
      | DragSelectionRight startX origStart origEnd =>
          match p_selection props with
          | None => []
          | Some selection =>
              let newEnd := clamp (origEnd + dt startX) (origStart + minClipLen) duration in
              [OnSelectionChange (Some (fst selection, newEnd))]
          end
      end
  end.

(** [startResizeLeft], [startResizeRight], [startSelectionLeft] and
    [startSelectionRight]: the drag state a pointer-down on a handle sets.
    The annotation handles pass the rendered record's own bounds. *)
Definition startResizeLeft (a : TriangleAnnotation) (clientX : Q) : DragState :=
  DragResizeLeft (id a) clientX (start a) (end_ a).

Definition startResizeRight (a : TriangleAnnotation) (clientX : Q) : DragState :=
  DragResizeRight (id a) clientX (start a) (end_ a).

Definition startSelectionLeft (props : TimelineProps) (clientX : Q) (drag : DragState)
  : DragState :=
  match p_selection props with
  | None => drag
  | Some selection => DragSelectionLeft clientX (fst selection) (snd selection)
  end.

Definition startSelectionRight (props : TimelineProps) (clientX : Q) (drag : DragState)
  : DragState :=
  match p_selection props with
  | None => drag
  | Some selection => DragSelectionRight clientX (fst selection) (snd selection)
  end.

(** The default of the [minClipLen] prop; the editor does not pass one. *)
Definition defaultMinClipLen : Q := 1 # 10.

(** The props the editor renders the timeline with (the [<AnnotationTimeline>]
    element); [minClipLen] is a parameter so that the default is visible. *)
Definition timelineProps (minClipLen : Q) (ed : Editor) : TimelineProps :=
  {| p_duration := duration ed;
     p_selection := selection ed;
     p_minClipLen := minClipLen |}.

(** How the editor wires the callbacks: [onSeek={onTimelineSeek}],
    [onChangeTime={updateAnnoTime}], [onSelectionChange={setSelection}]. *)
Definition handle (cb : Callback) (ed : Editor) : Editor :=
  match cb with
  | OnSeek t => onTimelineSeek t ed
  | OnChangeTime target nextStart nextEnd => updateAnnoTime target nextStart nextEnd ed
  | OnSelectionChange s => setSelection s ed
  end.

(** One pointer-move event on the timeline, seen from the editor. *)
Definition timelinePointerMove (minClipLen : Q) (drag : DragState)
    (container : option Rect) (clientX : Q) (ed : Editor) : Editor :=
  fold_left (fun e cb => handle cb e)
            (onScrubPointerMove (timelineProps minClipLen ed) drag container clientX)
            ed.

(* ================================================================== *)
(** * Sampling run (sampleSelection) *)
(* ================================================================== *)

(** The run suspends at every seek, paint tick and capture; the model runs
    it to completion, without other events in between.

    What the browser answers during one run.  A seek that neither settles
    nor fails would leave the run suspended for good, and a failed encoding
    would throw: the record has no field for either. *)
Record Host : Type := {
  getContext2d : bool;                (* [canvas.getContext("2d")] is not null *)
  seekSettles : nat -> bool;          (* the i-th seek fires [seeked] *)
  playResolves : bool;                (* the promise of [video.play()] resolves *)
  createObjectURL : nat -> string     (* the URL made for the i-th blob *)
}.

Definition updateVideo (f : Video -> Video) (ed : Editor) : Editor :=
  setVideo (option_map f (videoRef ed)) ed.

Definition withCurrentTime (t : Q) (v : Video) : Video :=
  {| v_currentTime := t; v_paused := v_paused v;
     v_playbackRate := v_playbackRate v;
     videoWidth := videoWidth v; videoHeight := videoHeight v |}.

Definition withPaused (b : bool) (v : Video) : Video :=
  {| v_currentTime := v_currentTime v; v_paused := b;
     v_playbackRate := v_playbackRate v;
     videoWidth := videoWidth v; videoHeight := videoHeight v |}.

Definition withPlaybackRate (r : Q) (v : Video) : Video :=
  {| v_currentTime := v_currentTime v; v_paused := v_paused v;
     v_playbackRate := r;
     videoWidth := videoWidth v; videoHeight := videoHeight v |}.

(** [x.toFixed(2)] for [x >= 0]. *)
Definition toFixed2 (x : Q) : string :=
  let n := Math_round (x * 100) in
  let cents := (n mod 100)%Z in
  showZ (n / 100)%Z ++ "." ++ (if (cents <? 10)%Z then "0" else "") ++ showZ cents.

(** [for (let i = 0; i < times.length; i++) { ... }]: [i] is the index of
    the head of [times], [n] is [times.length]. *)
Fixpoint captureLoop (host : Host) (canvas : Q * Q) (n i : nat) (times : list Q)
    (ed : Editor) (newFrames : list FrameInfo) : Editor * list FrameInfo :=
  match times with
  | [] => (ed, newFrames)
  | targetTime :: rest =>
      let ed1 := perform [SeekRequested targetTime] ed in
      let ed2 := if seekSettles host i
                 then updateVideo (withCurrentTime targetTime) ed1
                 else ed1 in
      let shown := match videoRef ed2 with
                   | Some video => v_currentTime video
                   | None => 0
                   end in
      let active :=
        if burnInAnnotation ed && overlayEnabled ed
        then filter (fun a => Qle_bool (start a) targetTime
                              && Qle_bool targetTime (end_ a))
                    (annotations ed)
        else [] in
      let blob := {| shownAt := shown; canvasSize := canvas; burned := active |} in
      let objectUrl := createObjectURL host i in
      let newFrames1 :=
        (newFrames ++ [{| index := i; time := targetTime; blob := blob;
                          objectUrl := objectUrl |}])%list in
      let ed3 :=
        setProgress (Math_round ((inject_Z (Z.of_nat (i + 1)) / inject_Z (Z.of_nat n)) * 100))
                    ed2 in
      captureLoop host canvas n (S i) rest ed3 newFrames1
  end.

(** Lines 475-553: the run once [times] is known. *)
Definition runSampling (host : Host) (hz : Q) (times : list Q) (video : Video)
    (ed : Editor) : Editor :=
  let ed := setSampling true ed in
  let ed := setProgress 0 ed in
  let ed := setFrames [] (perform (map (fun f => Revoked (objectUrl f)) (frames ed)) ed) in
  let previousRate := v_playbackRate video in
  let wasPlaying := negb (v_paused video) in
  let ed := updateVideo (withPaused true) ed in
  let ed := updateVideo (withPlaybackRate 1) ed in
  let canvas := (orElse (videoWidth video) 1280, orElse (videoHeight video) 720) in
  if negb (getContext2d host) then
    let ed := toast "Canvas error" "Cannot create drawing context." "destructive" ed in
    setSampling false ed
  else
    let '(ed, newFrames) := captureLoop host canvas (List.length times) 0 times ed [] in
    let ed := setFrames newFrames ed in
    let ed := setSampling false ed in
    let ed := updateVideo (withPlaybackRate previousRate) ed in
    let ed :=
      if wasPlaying then
        if playResolves host
        then setIsPlaying true (updateVideo (withPaused false) ed)
        else setIsPlaying false ed
      else ed in
    toast "Sampling complete"
          (showZ (Z.of_nat (List.length newFrames)) ++ " frame"
             ++ (if Nat.eqb (List.length newFrames) 1 then "" else "s")
             ++ " captured at " ++ toFixed2 hz ++ " Hz. Sequence: sequence_"
             ++ sequenceId ed)
          "default" ed.

(** [async function sampleSelection()].  [None]: the timestamp loop did not
    finish within [fuel] evaluations of its condition. *)
Definition sampleSelection (fuel : nat) (host : Host) (ed : Editor) : option Editor :=
  match videoRef ed with
  | None =>
      Some (toast "No video loaded" "Load a video before sampling." "destructive" ed)
  | Some video =>
      if Qeq_bool (fst (videoSize ed)) 0 || Qeq_bool (duration ed) 0 then
        Some (toast "No video loaded" "Load a video before sampling." "destructive" ed)
      else
        match selection ed with
        | None =>
            Some (toast "No selection"
                        "Use Select export region to choose a time range."
                        "destructive" ed)
        | Some (selStart, selEnd) =>
            if Qle_bool selEnd selStart then
              Some (toast "No selection"
                          "Use Select export region to choose a time range."
                          "destructive" ed)
            else
              let hz := Math_max (1 # 10) (samplingHz ed) in
              match sampleTimes fuel selStart selEnd (duration ed) (samplingHz ed) with
              | None => None
              | Some times => Some (runSampling host hz times video ed)
              end
        end
  end.

(* ================================================================== *)
(** * Notions used in the statements *)
(* ================================================================== *)

(** ** The timestamp loop, in closed form *)

(** The tolerance of the timestamp loop, [1e-6]. *)
Definition eps : Q := 1 # 1000000.

(** A loop index as a number. *)
Definition ofNat (i : nat) : Q := inject_Z (Z.of_nat i).

(** What [n] iterations from [t] push. *)
Fixpoint pushed (n : nat) (e step t : Q) : list Q :=
  match n with
  | O => []
  | S n' => Math_min t e :: pushed n' e step (t + step)
  end.

(** The number of iterations from [t]. *)
Definition iterations (e step t : Q) : nat :=
  if Qle_bool t (e + eps) then Z.to_nat (Qfloor ((e + eps - t) / step) + 1) else 0.

(** ** Barycentric coordinates, as the specification words them *)



(** The determinant is "near zero": below [1e-10] in absolute value. *)
Definition nearZero (d : Q) : Prop := Qabs d < 1 # 10000000000.

(** ** Views of the grouping *)

(** The keys of a map, in insertion order. *)
Definition keys {V} (m : JsMap V) : list string := map fst m.

(** The records of [l] whose key is [key], in the order of [l]. *)
Definition membersOf (key : string) (l : list TriangleAnnotation)
  : list TriangleAnnotation :=
  filter (fun a => String.eqb (keyOf a) key) l.

(** The map [createTriangleTracks] has built after the records of [l]. *)
Definition grouped (l : list TriangleAnnotation)
    (m : JsMap (list TriangleAnnotation)) : Prop :=
  NoDup (keys m) /\
  forall k, Map_get k m
            = if existsb (fun a => String.eqb (keyOf a) k) l
              then Some (membersOf k l) else None.

(** Whether a text contains the separator of the key. *)
Fixpoint hasUnderscore (s : string) : bool :=
  match s with
  | EmptyString => false
  | String c s' => Ascii.eqb c "_" || hasUnderscore s'
  end.

(** ** Views of a resize gesture *)

(** The bounds a resize gesture recorded at pointer-down. *)
Definition resizeOrigin (drag : DragState) : option (Q * Q) :=
  match drag with
  | DragResizeLeft _ _ origStart origEnd
  | DragResizeRight _ _ origStart origEnd
  | DragSelectionLeft _ origStart origEnd
  | DragSelectionRight _ origStart origEnd => Some (origStart, origEnd)
  | _ => None
  end.


(** The range a resize gesture works on: the records with the dragged id,
    or the selection. *)
Definition resizedRanges (drag : DragState) (ed : Editor) : list (Q * Q) :=
  match drag with
  | DragResizeLeft target _ _ _ | DragResizeRight target _ _ _ =>
      map (fun a => (start a, end_ a))
          (filter (fun a => String.eqb (id a) target) (annotations ed))
  | DragSelectionLeft _ _ _ | DragSelectionRight _ _ _ =>
      match selection ed with
      | Some s => [s]
      | None => []
      end
  | _ => []
  end.

(** The pointer-move events of one gesture so far, oldest first: the
    container as measured at each event, and the pointer position. *)
Definition gesture (minClipLen : Q) (drag : DragState) (moves : list (Rect * Q))
    (ed : Editor) : Editor :=
  fold_left (fun e mv => timelinePointerMove minClipLen drag (Some (fst mv)) (snd mv) e)
            moves ed.

(** ** Views of a sampling run *)

(** The guards of [sampleSelection] pass: a video is loaded and the selection
    is not empty. *)
Definition readyToSample (ed : Editor) (video : Video) (selStart selEnd : Q) : Prop :=
  videoRef ed = Some video /\
  ~ fst (videoSize ed) == 0 /\
  ~ duration ed == 0 /\
  selection ed = Some (selStart, selEnd) /\
  selStart < selEnd.



(** The notice shown when a click lands on an occupied key. *)
Definition duplicateNotice : Toast :=
  {| title := "Triangle already exists";
     description :=
       "A triangle already exists at this position. Selected existing triangle.";
     variant := "default" |}.

(** ** Concrete states *)

Definition exampleVideo : Video :=
  {| v_currentTime := 0; v_paused := false; v_playbackRate := 2;
     videoWidth := 1920; videoHeight := 1080 |}.

(** A record of the default size, color and stroke. *)
Definition exampleAnnotation (name : string) (px py from to : Q) : TriangleAnnotation :=
  {| id := name; x := px; y := py; size := defaultSize; color := defaultColor;
     strokeWidth := defaultStrokeWidth; start := from; end_ := to; label := None |}.

Definition exampleFrame : FrameInfo :=
  {| index := 0; time := 0;
     blob := {| shownAt := 0; canvasSize := (1920, 1080); burned := [] |};
     objectUrl := "blob:previous" |}.

(** A 10 s video, playing at double speed, playhead at [playhead], one frame
    left from an earlier run, selection [0, 2.5], sampling at 1 Hz. *)
Definition exampleEditor (playhead : Q) (annos : list TriangleAnnotation) : Editor :=
  {| videoRef := Some exampleVideo;
     duration := 10;
     videoSize := (1920, 1080);
     currentTime := playhead;
     isPlaying := true;
     annotations := annos;
     overlayEnabled := true;
     selectedId := None;
     selection := Some (0, 5 # 2);
     samplingHz := 1;
     burnInAnnotation := true;
     frames := [exampleFrame];
     sampling := false;
     progress := 0;
     sequenceId := "0";
     effects := [] |}.

(** A timeline 600 pixels wide whose left edge is at pixel 0. *)
Definition exampleRect : Rect := {| rect_left := 0; rect_width := 600 |}.

(** A browser in which every seek settles and [play()] resolves; [context]
    says whether a 2D drawing context can be had. *)
Definition exampleHost (context : bool) : Host :=
  {| getContext2d := context;
     seekSettles := fun _ => true;
     playResolves := true;
     createObjectURL := fun i => "blob:" ++ showZ (Z.of_nat i) |}.

(* ================================================================== *)
(** * More of the editor *)
(* ================================================================== *)

(** ** Time labels (formatTime) *)

(** [a % m] for [a >= 0] and [m > 0]. *)
Definition remainder (a m : Q) : Q := a - m * inject_Z (Qfloor (a / m)).

Fixpoint zeros (k : nat) : string :=
  match k with
  | O => ""
  | S k' => "0" ++ zeros k'
  end.

(** [s.padStart(n, "0")] *)
Definition padStart (n : nat) (s : string) : string :=
  zeros (n - String.length s) ++ s.

(** [function formatTime(totalSeconds)]; every rational is finite, so the
    guard is the sign test. *)
Definition formatTime (totalSeconds : Q) : string :=
  let totalSeconds := if Qltb totalSeconds 0 then 0 else totalSeconds in
  let hours := Qfloor (totalSeconds / 3600) in
  let minutes := Qfloor (remainder totalSeconds 3600 / 60) in
  let seconds := Qfloor (remainder totalSeconds 60) in
  let ms := Qfloor ((totalSeconds - inject_Z (Qfloor totalSeconds)) * 1000) in
  let hh := padStart 2 (showZ hours) in
  let mm := padStart 2 (showZ minutes) in
  let ss := padStart 2 (showZ seconds) in
  if (0 <? hours)%Z
  then hh ++ ":" ++ mm ++ ":" ++ ss ++ "." ++ padStart 3 (showZ ms)
  else mm ++ ":" ++ ss ++ "." ++ padStart 3 (showZ ms).

(** ** State updates the rest of the editor needs *)

Definition setDuration (d : Q) (ed : Editor) : Editor :=
  {| videoRef := videoRef ed; duration := d; videoSize := videoSize ed;
     currentTime := currentTime ed; isPlaying := isPlaying ed;
     annotations := annotations ed; overlayEnabled := overlayEnabled ed;
     selectedId := selectedId ed; selection := selection ed;
     samplingHz := samplingHz ed; burnInAnnotation := burnInAnnotation ed;
     frames := frames ed; sampling := sampling ed; progress := progress ed;
     sequenceId := sequenceId ed; effects := effects ed |}.

Definition setVideoSize (s : Q * Q) (ed : Editor) : Editor :=
  {| videoRef := videoRef ed; duration := duration ed; videoSize := s;
     currentTime := currentTime ed; isPlaying := isPlaying ed;
     annotations := annotations ed; overlayEnabled := overlayEnabled ed;
     selectedId := selectedId ed; selection := selection ed;
     samplingHz := samplingHz ed; burnInAnnotation := burnInAnnotation ed;
     frames := frames ed; sampling := sampling ed; progress := progress ed;
     sequenceId := sequenceId ed; effects := effects ed |}.

Definition setCurrentTime (t : Q) (ed : Editor) : Editor :=
  {| videoRef := videoRef ed; duration := duration ed; videoSize := videoSize ed;
     currentTime := t; isPlaying := isPlaying ed;
     annotations := annotations ed; overlayEnabled := overlayEnabled ed;
     selectedId := selectedId ed; selection := selection ed;
     samplingHz := samplingHz ed; burnInAnnotation := burnInAnnotation ed;
     frames := frames ed; sampling := sampling ed; progress := progress ed;
     sequenceId := sequenceId ed; effects := effects ed |}.

(** ** Transport *)

(** [function seekBy(delta)] *)
Definition seekBy (delta : Q) (ed : Editor) : Editor :=
  match videoRef ed with
  | None => ed
  | Some video =>
      setVideo (Some (withCurrentTime
                        (clamp (v_currentTime video + delta) 0 (orElse (duration ed) 0))
                        video)) ed
  end.

(** The [loadedmetadata] handler [onLoaded]; [videoDuration] is
    [video.duration]. *)
Definition onLoaded (videoDuration : Q) (ed : Editor) : Editor :=
  match videoRef ed with
  | None => ed
  | Some video =>
      let ed := setDuration (orElse videoDuration 0) ed in
      let ed := setVideoSize (videoWidth video, videoHeight video) ed in
      let ed := setCurrentTime 0 ed in
      let defaultEnd := Math_min 30 (orElse videoDuration 0) in
      if Qltb 0 defaultEnd then setSelection (Some (0, defaultEnd)) ed else ed
  end.

(** ** Annotations on the overlay *)

(** A string in a condition counts as true when it is not empty. *)
Definition truthy (s : option string) : option string :=
  match s with
  | Some v => if String.eqb v "" then None else Some v
  | None => None
  end.

(** [function removeSelected()], also the Delete and Backspace keys. *)
Definition removeSelected (ed : Editor) : Editor :=
  match truthy (selectedId ed) with
  | None => ed
  | Some sel =>
      setSelectedId None
        (setAnnotations (filter (fun a => negb (String.eqb (id a) sel)) (annotations ed))
                        ed)
  end.

(** [function updateSelectedSpatial(partial)]; an absent field of [partial]
    is [None]. *)
Definition updateSelectedSpatial (newSize : option Q) (newColor : option string)
    (ed : Editor) : Editor :=
  match truthy (selectedId ed) with
  | None => ed
  | Some sel =>
      setAnnotations
        (map (fun a =>
                if String.eqb (id a) sel
                then {| id := id a; x := x a; y := y a;
                        size := orDefault newSize (size a);
                        color := match newColor with Some c => c | None => color a end;
                        strokeWidth := strokeWidth a;
                        start := start a; end_ := end_ a; label := label a |}
                else a)
             (annotations ed))
        ed
  end.

(** The overlay layer as [getBoundingClientRect()] measures it. *)
Record LayerRect : Type := {
  layer_left : Q;
  layer_top : Q;
  layer_width : Q;
  layer_height : Q
}.

(** The editor together with the two pieces of gesture state of the overlay:
    [suppressClickRef.current] and [draggingAnnoId]. *)
Record Overlay : Type := {
  editor : Editor;
  suppressClick : bool;
  draggingAnnoId : option string
}.

(** [function onOverlayClick(e)]; [layer] is [overlayLayerRef.current]
    measured at this event, [uuid] what [getUUID()] would return. *)
Definition onOverlayClick (layer : option LayerRect) (uuid : string)
    (clientX clientY : Q) (ov : Overlay) : Result Overlay :=
  match layer with
  | None => Ok ov
  | Some rect =>
      if suppressClick ov then
        Ok {| editor := editor ov; suppressClick := false;
              draggingAnnoId := draggingAnnoId ov |}
      else
        let ed := editor ov in
        let* x := divide (clientX - layer_left rect) (layer_width rect) in
        let* y := divide (clientY - layer_top rect) (layer_height rect) in
        let* clickedTriangle :=
          findTriangleAtPosition x y (currentTime ed) (annotations ed)
                                 (fst (videoSize ed)) (snd (videoSize ed)) in
        match clickedTriangle with
        | Some clicked =>
            Ok {| editor := setSelectedId (Some (id clicked)) ed;
                  suppressClick := suppressClick ov;
                  draggingAnnoId := draggingAnnoId ov |}
        | None =>
            Ok {| editor := addAnnotationAt uuid x y ed;
                  suppressClick := suppressClick ov;
                  draggingAnnoId := draggingAnnoId ov |}
        end
  end.

(** [function onAnnoPointerDown(id, e)] *)
Definition onAnnoPointerDown (target : string) (ov : Overlay) : Overlay :=
  {| editor := setSelectedId (Some target) (editor ov);
     suppressClick := true;
     draggingAnnoId := Some target |}.

(** [function onAnnoPointerMove(e)] *)
Definition onAnnoPointerMove (layer : option LayerRect) (clientX clientY : Q)
    (ov : Overlay) : Result Overlay :=
  match truthy (draggingAnnoId ov), layer with
  | Some dragged, Some rect =>
      let* x' := divide (clientX - layer_left rect) (layer_width rect) in
      let* y' := divide (clientY - layer_top rect) (layer_height rect) in
      Ok {| editor :=
              setAnnotations
                (map (fun a =>
                        if String.eqb (id a) dragged
                        then {| id := id a; x := clamp x' 0 1; y := clamp y' 0 1;
                                size := size a; color := color a;
                                strokeWidth := strokeWidth a;
                                start := start a; end_ := end_ a; label := label a |}
                        else a)
                     (annotations (editor ov)))
                (editor ov);
            suppressClick := suppressClick ov;
            draggingAnnoId := draggingAnnoId ov |}
  | _, _ => Ok ov
  end.

(** [function onAnnoPointerUp(e)]; the reset of [suppressClickRef] it
    schedules is [suppressTimeout]. *)
Definition onAnnoPointerUp (ov : Overlay) : Overlay :=
  {| editor := editor ov; suppressClick := suppressClick ov; draggingAnnoId := None |}.

Definition suppressTimeout (ov : Overlay) : Overlay :=
  {| editor := editor ov; suppressClick := false; draggingAnnoId := draggingAnnoId ov |}.


(** ** The other timeline gestures *)

(** [function onScrubPointerDown(e)]: the callbacks it calls and the drag
    state it sets. *)
Definition onScrubPointerDown (props : TimelineProps) (selectMode : bool)
    (container : option Rect) (clientX : Q) (drag : DragState)
  : list Callback * DragState :=
  match container with
  | None => ([], drag)
  | Some rect =>
      let t := xToTime props clientX rect in
      if selectMode
      then ([OnSelectionChange (Some (t, t))], DragSelectRange clientX t)
      else ([OnSeek t], DragSeek clientX)
  end.

(** [function onScrubPointerUp()], also the handler of pointer-cancel. *)
Definition onScrubPointerUp (drag : DragState) : DragState := DragNone.


(** [function startSelectionMove(e)] *)
Definition startSelectionMove (props : TimelineProps) (clientX : Q) (drag : DragState)
  : DragState :=
  match p_selection props with
  | None => drag
  | Some selection => DragSelectionMove clientX (fst selection) (snd selection)
  end.

(** One pointer-down event on the scrub bar, seen from the editor. *)
Definition timelinePointerDown (minClipLen : Q) (selectMode : bool)
    (container : option Rect) (clientX : Q) (drag : DragState) (ed : Editor)
  : Editor * DragState :=
  let '(calls, drag') :=
    onScrubPointerDown (timelineProps minClipLen ed) selectMode container clientX drag in
  (fold_left (fun e cb => handle cb e) calls ed, drag').

(** ** Releasing the frames *)


(** ** Frame preview *)

(** The ArrowLeft and ArrowRight updates of [previewIndex]; [%] truncates
    towards zero. *)
Definition previewPrev (framesLength i : Z) : Z :=
  if (framesLength =? 0)%Z then 0%Z else Z.rem (i - 1 + framesLength) framesLength.

Definition previewNext (framesLength i : Z) : Z :=
  if (framesLength =? 0)%Z then 0%Z else Z.rem (i + 1) framesLength.

(** ** Export *)

(** [x.toFixed(3)] for [x >= 0]. *)
Definition toFixed3 (x : Q) : string :=
  let n := Math_round (x * 1000) in
  showZ (n / 1000)%Z ++ "." ++ padStart 3 (showZ (n mod 1000)%Z).

(** The name [downloadZip] gives the file of a frame; [seqTag] is
    [`sequence_${sequenceId}`]. *)
Definition frameFileName (seqTag : string) (f : FrameInfo) : string :=
  seqTag ++ "_" ++ padStart 4 (showZ (Z.of_nat (index f))) ++ "_"
         ++ toFixed3 (time f) ++ "s.jpg".

(** The name of the metadata file in the same folder. *)
Definition metadataFileName (seqTag : string) : string :=
  seqTag ++ "_metadata.json".

(** [binaryIds.slice(i, j)] *)
Definition slice {A} (i j : nat) (l : list A) : list A := firstn (j - i) (skipn i l).

Definition chunkSize : nat := 50.

(** [for (let i = 0; i < binaryIds.length; i += chunkSize)] of
    [uploadToViam]: the chunks handed to [addBinaryDataToDatasetByIds], in
    order.  [None]: the fuel ran out. *)
Fixpoint chunkLoop (fuel : nat) (i : nat) (binaryIds : list string)
    (sent : list (list string)) : option (list (list string)) :=
  match fuel with
  | O => None
  | S fuel' =>
      if (i <? List.length binaryIds)%nat
      then chunkLoop fuel' (i + chunkSize)%nat binaryIds
                     (sent ++ [slice i (i + chunkSize) binaryIds])%list
      else Some sent
  end.

Definition datasetChunks (fuel : nat) (binaryIds : list string)
  : option (list (list string)) :=
  chunkLoop fuel 0 binaryIds [].

(** ** Notions used in the further statements *)




(** Every record sits inside the frame: [x] and [y] within [[0, 1]]. *)
Definition inFrame (ed : Editor) : Prop :=
  forall a, In a (annotations ed) -> 0 <= x a <= 1 /\ 0 <= y a <= 1.

(** [a'] is [a] with possibly another position. *)
Definition sameButPosition (a a' : TriangleAnnotation) : Prop :=
  id a' = id a /\ size a' = size a /\ color a' = color a /\
  strokeWidth a' = strokeWidth a /\ start a' = start a /\ end_ a' = end_ a /\
  label a' = label a.


(** A drag: the pointer-move events between pointer-down and pointer-up, as
    [(clientX, clientY)], handled in order. *)
Definition dragSteps (layer : LayerRect) (steps : list (Q * Q)) (ov : Overlay)
  : Result Overlay :=
  fold_left (fun r step =>
               let* o := r in
               onAnnoPointerMove (Some layer) (fst step) (snd step) o)
            steps (Ok ov).

(** Start times in ascending order: each is at most all that follow it. *)
Fixpoint ascending (starts : list Q) : Prop :=
  match starts with
  | [] => True
  | s :: rest => Forall (fun s' => s <= s') rest /\ ascending rest
  end.

(** The keys of the records of [l], each once, in the order in which they
    first occur. *)
Definition firstSeen (l : list TriangleAnnotation) : list string :=
  fold_left (fun ks a =>
               if existsb (String.eqb (keyOf a)) ks then ks
               else (ks ++ [keyOf a])%list)
            l [].

(** ** Views of a move gesture *)



(** ** Views of the export *)

(** Whether a text begins with the digit 0. *)
Definition leadingZero (s : string) : bool :=
  match s with
  | String c _ => Ascii.eqb c "0"
  | EmptyString => false
  end.

(** ** Views of a time label *)


(** ** Views of the object URLs *)

(* ================================================================== *)
(** * Properties *)
(* ================================================================== *)

(** ** Comparisons, minimum, maximum and clamp on exact rationals *)

Lemma Qle_bool_true (a b : Q) : Qle_bool a b = true <-> a <= b.
Proof. apply Qle_bool_iff. Qed.

Lemma Qle_bool_false (a b : Q) : Qle_bool a b = false <-> b < a.
Proof.
  split; intro Hf.
  - apply Qnot_le_lt. intro Hle. apply Qle_bool_iff in Hle. congruence.
  - destruct (Qle_bool a b) eqn:E; [|reflexivity].
    apply Qle_bool_iff in E. lra.
Qed.

Lemma Qltb_true (a b : Q) : Qltb a b = true <-> a < b.
Proof.
  unfold Qltb. rewrite negb_true_iff. apply Qle_bool_false.
Qed.

Lemma Qltb_false (a b : Q) : Qltb a b = false <-> b <= a.
Proof.
  unfold Qltb. rewrite negb_false_iff. apply Qle_bool_true.
Qed.

Lemma Qeq_bool_true (a b : Q) : Qeq_bool a b = true <-> a == b.
Proof. apply Qeq_bool_iff. Qed.

Lemma Qeq_bool_false (a b : Q) : Qeq_bool a b = false <-> ~ a == b.
Proof.
  split; intro Hf.
  - intro He. apply Qeq_bool_iff in He. congruence.
  - destruct (Qeq_bool a b) eqn:E; [|reflexivity].
    apply Qeq_bool_iff in E. contradiction.
Qed.

(** Split on every comparison in sight and hand the linear facts to [lra]. *)
Ltac qcase a b :=
  let E := fresh "E" in
  destruct (Qle_bool a b) eqn:E;
  [ apply Qle_bool_true in E | apply Qle_bool_false in E ].

Ltac qcases :=
  repeat match goal with
         | |- context [Qle_bool ?a ?b] => qcase a b
         | H : context [Qle_bool ?a ?b] |- _ => qcase a b
         end.

Lemma Math_min_cases (a b : Q) :
  (a <= b /\ Math_min a b = a) \/ (b < a /\ Math_min a b = b).
Proof. simpl. unfold Qmin_js. qcases; auto. Qed.

Lemma Math_max_cases (a b : Q) :
  (a <= b /\ Math_max a b = b) \/ (b < a /\ Math_max a b = a).
Proof. simpl. unfold Qmax_js. qcases; auto. Qed.

Lemma Math_min_le_l (a b : Q) : Math_min a b <= a.
Proof. destruct (Math_min_cases a b) as [[? ->]|[? ->]]; lra. Qed.

Lemma Math_min_le_r (a b : Q) : Math_min a b <= b.
Proof. destruct (Math_min_cases a b) as [[? ->]|[? ->]]; lra. Qed.

Lemma Math_max_ge_l (a b : Q) : a <= Math_max a b.
Proof. destruct (Math_max_cases a b) as [[? ->]|[? ->]]; lra. Qed.

Lemma Math_max_ge_r (a b : Q) : b <= Math_max a b.
Proof. destruct (Math_max_cases a b) as [[? ->]|[? ->]]; lra. Qed.


(** The upper limit of [clamp] wins: the result never exceeds [hi], and it
    reaches [lo] only when [lo <= hi]. *)
Lemma clamp_le_max (v lo hi : Q) : clamp v lo hi <= hi.
Proof. unfold clamp. apply Math_min_le_l. Qed.

Lemma clamp_ge_min (v lo hi : Q) : lo <= hi -> lo <= clamp v lo hi.
Proof.
  intro Hle. unfold clamp.
  pose proof (Math_max_ge_l lo v).
  destruct (Math_min_cases hi (Math_max lo v)) as [[? ->]|[? ->]]; lra.
Qed.


Lemma clamp_mono (v w lo hi : Q) : v <= w -> clamp v lo hi <= clamp w lo hi.
Proof.
  intro Hle. unfold clamp.
  destruct (Math_max_cases lo v) as [[? ->]|[? ->]];
    destruct (Math_max_cases lo w) as [[? ->]|[? ->]];
    repeat match goal with
           | |- context [Math_min ?a ?b] =>
               destruct (Math_min_cases a b) as [[? ->]|[? ->]]
           end; lra.
Qed.

(** ** The timestamp loop in exact arithmetic *)

Lemma ofNat_S (i : nat) : ofNat (S i) == ofNat i + 1.
Proof.
  unfold ofNat. rewrite Nat2Z.inj_succ. unfold Z.succ.
  rewrite inject_Z_plus. reflexivity.
Qed.

Lemma ofNat_0 : ofNat 0 == 0.
Proof. reflexivity. Qed.




(** [n] iterations: the condition holds at the first [n] values of [t] and
    fails at the next one. *)
Lemma timesLoop_exact (n : nat) :
  forall (fuel : nat) (e step t : Q) (acc : list Q),
    (forall i, (i < n)%nat -> t + ofNat i * step <= e + eps) ->
    e + eps < t + ofNat n * step ->
    (n < fuel)%nat ->
    timesLoop fuel e step t acc = Some (acc ++ pushed n e step t)%list.
Proof.
  induction n as [|n IH]; intros fuel e step t acc Hin Hout Hfuel.
  - destruct fuel as [|fuel]; [lia|].
    simpl. rewrite ofNat_0 in Hout.
    assert (Hc : Qle_bool t (e + (1 # 1000000)) = false).
    { apply Qle_bool_false. unfold eps in Hout. lra. }
    rewrite Hc, app_nil_r. reflexivity.
  - destruct fuel as [|fuel]; [lia|].
    simpl.
    assert (Hc : Qle_bool t (e + (1 # 1000000)) = true).
    { apply Qle_bool_true. specialize (Hin 0%nat ltac:(lia)).
      rewrite ofNat_0 in Hin. unfold eps in Hin. lra. }
    rewrite Hc, IH.
    + rewrite <- app_assoc. reflexivity.
    + intros i Hi. specialize (Hin (S i) ltac:(lia)).
      rewrite ofNat_S in Hin. lra.
    + rewrite ofNat_S in Hout. lra.
    + lia.
Qed.

Lemma floor_nonneg (e step t : Q) :
  0 < step -> t <= e + eps -> (0 <= Qfloor ((e + eps - t) / step))%Z.
Proof.
  intros Hstep Hle. change 0%Z with (Qfloor 0). apply Qfloor_resp_le.
  apply Qle_shift_div_l; lra.
Qed.

Lemma iterations_in (e step t : Q) (i : nat) :
  0 < step -> (i < iterations e step t)%nat -> t + ofNat i * step <= e + eps.
Proof.
  intros Hstep Hi. unfold iterations in Hi.
  qcase t (e + eps); [|lia].
  pose proof (floor_nonneg Hstep E) as Hf0.
  set (q := (e + eps - t) / step) in *.
  assert (Hq : q * step == e + eps - t) by (unfold q; field; lra).
  pose proof (Qfloor_le q) as Hfl.
  assert (Hif : ofNat i <= inject_Z (Qfloor q)).
  { unfold ofNat. rewrite <- Zle_Qle. lia. }
  assert (ofNat i * step <= q * step).
  { apply Qmult_le_compat_r; lra. }
  lra.
Qed.

Lemma iterations_out (e step t : Q) :
  0 < step -> e + eps < t + ofNat (iterations e step t) * step.
Proof.
  intros Hstep. unfold iterations.
  qcase t (e + eps); [|rewrite ofNat_0; lra].
  pose proof (floor_nonneg Hstep E) as Hf0.
  set (q := (e + eps - t) / step) in *.
  assert (Hq : q * step == e + eps - t) by (unfold q; field; lra).
  pose proof (Qlt_floor q) as Hfl.
  unfold ofNat. rewrite Z2Nat.id by lia.
  assert (q * step < inject_Z (Qfloor q + 1) * step).
  { apply Qmult_lt_compat_r; lra. }
  lra.
Qed.


(** The rate is at least 0.1 Hz, so the step is positive and at most 10. *)
Lemma step_positive (samplingHz : Q) :
  0 < 1 / Math_max (1 # 10) samplingHz <= 10.
Proof.
  pose proof (Math_max_ge_l (1 # 10) samplingHz) as Hhz.
  set (hz := Math_max (1 # 10) samplingHz) in *.
  split.
  - apply Qlt_shift_div_l; lra.
  - apply Qle_shift_div_r; lra.
Qed.

Lemma sampleTimes_exact (fuel : nat) (selStart selEnd duration samplingHz : Q) :
  let s := clamp selStart 0 duration in
  let e := clamp selEnd 0 duration in
  let step := 1 / Math_max (1 # 10) samplingHz in
  (iterations e step s < fuel)%nat ->
  sampleTimes fuel selStart selEnd duration samplingHz
  = Some (pushed (iterations e step s) e step s).
Proof.
  intros s e step Hfuel.
  pose proof (step_positive samplingHz) as [Hstep _]. fold step in Hstep.
  unfold sampleTimes.
  change (timesLoop fuel e step s [] = Some (pushed (iterations e step s) e step s)).
  rewrite (timesLoop_exact (n := iterations e step s)); [reflexivity | | | exact Hfuel].
  - intros i Hi. apply iterations_in; assumption.
  - apply iterations_out; assumption.
Qed.

(** In exact arithmetic the loop of [sampleTimes] stops for every rate,
    zero and negative ones included, and for every selection. *)
Lemma sampleTimes_exact_terminates (selStart selEnd duration samplingHz : Q) :
  exists n times,
    forall fuel, (n < fuel)%nat ->
      sampleTimes fuel selStart selEnd duration samplingHz = Some times.
Proof.
  eexists. eexists. intros fuel Hfuel.
  apply sampleTimes_exact. exact Hfuel.
Qed.




(** Range [0, 10] at 2 Hz gives exactly the 21 timestamps 0, 0.5, ..., 10. *)
Example sampleTimes_0_10_at_2Hz :
  option_map (map Qred) (sampleTimes 22 0 10 10 2)
  = Some [0; 1 # 2; 1; 3 # 2; 2; 5 # 2; 3; 7 # 2; 4; 9 # 2; 5;
          11 # 2; 6; 13 # 2; 7; 15 # 2; 8; 17 # 2; 9; 19 # 2; 10].
Proof. vm_compute. reflexivity. Qed.


(** ** The timestamp loop in binary64 arithmetic *)

(** One iteration that leaves [t] where it was leads to the same test again. *)
Lemma timesLoop_stalls {num : Type} `{JsNumber num} (e step t : num) :
  nleb t (nadd e (nlit (1 # 1000000))) = true ->
  nadd t step = t ->
  forall (fuel : nat) (acc : list num), timesLoop fuel e step t acc = None.
Proof.
  intros Hcond Hstall fuel.
  induction fuel as [|fuel IH]; intro acc; simpl; [reflexivity|].
  rewrite Hcond, Hstall. apply IH.
Qed.

(** In binary64, [10 + 1e-17] is [10]. *)
Example absorbed_step :
  nadd (Binary64.ofZ 10) (ndiv (nlit 1) (Binary64.ofZ (10 ^ 17))) = Binary64.ofZ 10.
Proof. vm_compute. reflexivity. Qed.

(** C10 (failing input): selection [10, 20] of a 30 s video sampled at
    1e17 Hz.  The step 1e-17 is absorbed by [t = 10], the loop condition stays
    true, and no amount of fuel lets the loop finish. *)
Theorem sampleTimes_binary64_stalls :
  forall fuel : nat,
    sampleTimes fuel (Binary64.ofZ 10) (Binary64.ofZ 20) (Binary64.ofZ 30)
                (Binary64.ofZ (10 ^ 17)) = None.
Proof.
  intro fuel. unfold sampleTimes.
  apply timesLoop_stalls; vm_compute; reflexivity.
Qed.

(** Range [0, 10] at 2 Hz in binary64: the same 21 timestamps, every one of
    them exact. *)
Example sampleTimes_binary64_0_10_at_2Hz :
  sampleTimes 22 (Binary64.ofZ 0) (Binary64.ofZ 10) (Binary64.ofZ 10) (Binary64.ofZ 2)
  = Some (map (fun k => Binary64.div (Binary64.ofZ k) (Binary64.ofZ 2))
              [0; 1; 2; 3; 4; 5; 6; 7; 8; 9; 10; 11; 12; 13; 14; 15; 16; 17;
               18; 19; 20]%Z).
Proof. vm_compute. reflexivity. Qed.

(** Range [0, 2.5] at 1 Hz in binary64: 0, 1, 2 again, every value exact. *)
Example sampleTimes_binary64_misses_end :
  sampleTimes 4 (Binary64.ofZ 0) (nlit (5 # 2)) (Binary64.ofZ 10) (Binary64.ofZ 1)
  = Some [Binary64.ofZ 0; Binary64.ofZ 1; Binary64.ofZ 2].
Proof. vm_compute. reflexivity. Qed.

(** Range [0, 1] at 10 Hz in binary64: eleven timestamps, and the last is
    [0.9999999999999999], one unit in the last place below [1]: the
    accumulated steps fall short of the end and [Math.min] leaves them. *)
Example sampleTimes_binary64_undershoot :
  exists times : list Binary64.float,
    sampleTimes 12 (Binary64.ofZ 0) (Binary64.ofZ 1) (Binary64.ofZ 10) (Binary64.ofZ 10)
    = Some times /\
    List.length times = 11%nat /\
    last times S754_nan = S754_finite false 9007199254740991 (-53) /\
    SFltb (last times S754_nan) (Binary64.ofZ 1) = true.
Proof.
  eexists. split; [vm_compute; reflexivity|].
  repeat split.
Qed.

(** ** Annotation store: creation and time mutation *)

(** The end that [addAnnotationAt] computes lies after the playhead exactly
    when the playhead is before the media duration, or the duration is
    unknown (zero). *)
Lemma created_end_after_start (currentTime duration : Q) :
  currentTime < clamp (currentTime + defaultAnnoDuration) 0
                      (orElse duration (currentTime + defaultAnnoDuration))
  <-> duration == 0 \/ currentTime < duration.
Proof.
  unfold orElse, clamp, defaultAnnoDuration.
  destruct (Qeq_bool duration 0) eqn:Hd;
    [apply Qeq_bool_true in Hd | apply Qeq_bool_false in Hd].
  - destruct (Math_max_cases 0 (currentTime + 3)) as [[? ->]|[? ->]];
      match goal with
      | |- context [Math_min ?a ?b] =>
          destruct (Math_min_cases a b) as [[? ->]|[? ->]]
      end; split; intros; try lra; left; exact Hd.
  - destruct (Math_max_cases 0 (currentTime + 3)) as [[? ->]|[? ->]];
      match goal with
      | |- context [Math_min ?a ?b] =>
          destruct (Math_min_cases a b) as [[? ->]|[? ->]]
      end; split; intros Hx; try lra;
      try (right; lra); destruct Hx as [Hx|Hx]; try lra; contradiction.
Qed.

Lemma updateAnnoTime_annotations (target : string) (nextStart nextEnd : option Q)
    (ed : Editor) (a' : TriangleAnnotation) :
  In a' (annotations (updateAnnoTime target nextStart nextEnd ed)) <->
  exists a, In a (annotations ed) /\
    ((id a = target /\
      a' = {| id := id a; x := x a; y := y a; size := size a; color := color a;
              strokeWidth := strokeWidth a;
              start := orDefault nextStart (start a);
              end_ := orDefault nextEnd (end_ a);
              label := label a |})
     \/ (id a <> target /\ a' = a)).
Proof.
  unfold updateAnnoTime. simpl. rewrite in_map_iff. split.
  - intros (a & Ha & Hin). exists a. split; [exact Hin|].
    destruct (String.eqb_spec (id a) target) as [He|Hne]; subst a'; auto.
  - intros (a & Hin & [[He ->]|[Hne ->]]); exists a; split; try exact Hin.
    + apply String.eqb_eq in He. rewrite He. reflexivity.
    + apply String.eqb_neq in Hne. rewrite Hne. reflexivity.
Qed.

(** C3 (as amended): a created record starts at the playhead and has
    [end > start] exactly when the playhead is before the media duration (or
    the duration is zero); [updateAnnoTime] stores the bounds it is given, so
    it keeps [end > start] on every record exactly when the bounds it writes
    to the target are ordered. *)
Theorem annotation_range_after_mutation :
  forall ed : Editor,
    (forall (uuid : string) (xNorm yNorm : Q),
       annotations (addAnnotationAt uuid xNorm yNorm ed) = annotations ed \/
       exists anno,
         annotations (addAnnotationAt uuid xNorm yNorm ed)
         = (annotations ed ++ [anno])%list /\
         id anno = uuid /\
         start anno = currentTime ed /\
         (start anno < end_ anno <->
          duration ed == 0 \/ currentTime ed < duration ed)) /\
    (forall (target : string) (nextStart nextEnd : option Q),
       (forall a, In a (annotations ed) -> start a < end_ a) ->
       ((forall a', In a' (annotations (updateAnnoTime target nextStart nextEnd ed)) ->
                    start a' < end_ a')
        <->
        (forall a, In a (annotations ed) -> id a = target ->
                   orDefault nextStart (start a) < orDefault nextEnd (end_ a)))).
Proof.
  intro ed. split.
  - intros uuid xNorm yNorm. unfold addAnnotationAt.
    destruct (find _ (annotations ed)) as [existing|]; [left; reflexivity|].
    right. eexists. split; [reflexivity|]. simpl.
    split; [reflexivity|]. split; [reflexivity|].
    apply created_end_after_start.
  - intros target nextStart nextEnd Hinv. split.
    + intros Hall a Hin Hid.
      apply (Hall {| id := id a; x := x a; y := y a; size := size a;
                     color := color a; strokeWidth := strokeWidth a;
                     start := orDefault nextStart (start a);
                     end_ := orDefault nextEnd (end_ a);
                     label := label a |}).
      apply updateAnnoTime_annotations. exists a. auto.
    + intros Hord a' Hin'.
      apply updateAnnoTime_annotations in Hin'.
      destruct Hin' as (a & Hin & [[Hid ->]|[Hne ->]]); simpl; auto.
Qed.

(** One record over [2, 5]; moving its start to 1 keeps every range ordered. *)
Lemma annotation_range_after_mutation_witness :
  let ed := exampleEditor 4 [exampleAnnotation "a1" (1 # 2) (1 # 5) 2 5] in
  (forall a, In a (annotations ed) -> start a < end_ a) /\
  (forall a, In a (annotations ed) -> id a = "a1" ->
             orDefault (Some 1) (start a) < orDefault None (end_ a)) /\
  (forall a', In a' (annotations (updateAnnoTime "a1" (Some 1) None ed)) ->
              start a' < end_ a').
Proof.
  intro ed.
  assert (Hinv : forall a, In a (annotations ed) -> start a < end_ a).
  { intros a [<-|[]]. reflexivity. }
  assert (Hord : forall a, In a (annotations ed) -> id a = "a1" ->
                           orDefault (Some 1) (start a) < orDefault None (end_ a)).
  { intros a [<-|[]] _. reflexivity. }
  split; [exact Hinv|]. split; [exact Hord|].
  exact (proj2 (proj2 (annotation_range_after_mutation ed) "a1" (Some 1) None Hinv) Hord).
Defined.

(** C3 (as stated) fails: a click with the playhead at the end of a 10 s video
    creates a record with [start = end = 10]; and [updateAnnoTime] writes
    whatever bounds it is handed, here [start = 5] and [end = 2]. *)
Lemma annotation_range_can_be_empty :
  (exists anno,
     annotations (addAnnotationAt "u1" (1 # 2) (1 # 5) (exampleEditor 10 []))
     = [anno] /\
     start anno = 10 /\ end_ anno = 10 /\ ~ start anno < end_ anno) /\
  (exists anno,
     annotations (updateAnnoTime "a1" (Some 5) (Some 2)
                    (exampleEditor 4 [exampleAnnotation "a1" (1 # 2) (1 # 5) 2 5]))
     = [anno] /\
     start anno = 5 /\ end_ anno = 2 /\ ~ start anno < end_ anno).
Proof.
  split; eexists; (split; [vm_compute; reflexivity|]);
    simpl; repeat split; vm_compute; discriminate.
Qed.

(** ** Duplicate creation *)

(** C7: when some record already has the key of the clamped click position and
    the default color, [addAnnotationAt] adds nothing: the collection is
    unchanged, the first record with that key becomes the selected one, and
    one notice of the non-error variant is shown. *)
Theorem addAnnotationAt_duplicate :
  forall (uuid : string) (xNorm yNorm : Q) (ed : Editor) (existing : TriangleAnnotation),
    In existing (annotations ed) ->
    keyOf existing = triangleKey (clamp xNorm 0 1) (clamp yNorm 0 1) defaultColor ->
    let ed' := addAnnotationAt uuid xNorm yNorm ed in
    annotations ed' = annotations ed /\
    List.length (annotations ed') = List.length (annotations ed) /\
    (exists first rest1 rest2,
       annotations ed = (rest1 ++ first :: rest2)%list /\
       keyOf first = keyOf existing /\
       (forall a, In a rest1 -> keyOf a <> keyOf existing) /\
       selectedId ed' = Some (id first)) /\
    effects ed' = (effects ed ++ [Toasted duplicateNotice])%list /\
    variant duplicateNotice <> "destructive".
Proof.
  intros uuid xNorm yNorm ed existing Hin Hkey ed'.
  set (key := triangleKey (clamp xNorm 0 1) (clamp yNorm 0 1) defaultColor) in *.
  assert (Hfind : exists first rest1 rest2,
            find (fun a => String.eqb (triangleKey (x a) (y a) (color a)) key)
                 (annotations ed) = Some first /\
            annotations ed = (rest1 ++ first :: rest2)%list /\
            keyOf first = key /\
            (forall a, In a rest1 -> keyOf a <> key)).
  { clear ed'. revert Hin. generalize (annotations ed) as l.
    induction l as [|a l IH]; intro Hin; [destruct Hin|].
    simpl. destruct (String.eqb_spec (triangleKey (x a) (y a) (color a)) key) as [He|Hne].
    - exists a, [], l.
      split; [reflexivity|]. split; [reflexivity|]. split; [exact He|].
      intros ? [].
    - destruct Hin as [->|Hin]; [unfold keyOf in Hkey; contradiction|].
      destruct (IH Hin) as (first & r1 & r2 & Hf & -> & Hk & Hr1).
      exists first, (a :: r1), r2.
      split; [exact Hf|]. split; [reflexivity|]. split; [exact Hk|].
      intros b [<-|Hb]; [exact Hne | apply Hr1; exact Hb]. }
  destruct Hfind as (first & r1 & r2 & Hf & Hl & Hk & Hr1).
  assert (Hed' : ed' = toast "Triangle already exists"
            "A triangle already exists at this position. Selected existing triangle."
            "default" (setSelectedId (Some (id first)) ed)).
  { unfold ed', addAnnotationAt. fold key. rewrite Hf. reflexivity. }
  rewrite Hed'. simpl.
  split; [reflexivity|]. split; [reflexivity|].
  split.
  - exists first, r1, r2. rewrite Hkey. auto.
  - split; [reflexivity | discriminate].
Qed.

(** A click at (0.5, 0.2) over a record at (0.5, 0.2) of the default color. *)
Lemma addAnnotationAt_duplicate_witness :
  let a1 := exampleAnnotation "a1" (1 # 2) (1 # 5) 2 5 in
  let ed := exampleEditor 4 [a1] in
  let ed' := addAnnotationAt "u1" (1 # 2) (1 # 5) ed in
  In a1 (annotations ed) /\
  keyOf a1 = triangleKey (clamp (1 # 2) 0 1) (clamp (1 # 5) 0 1) defaultColor /\
  annotations ed' = annotations ed /\
  List.length (annotations ed') = List.length (annotations ed) /\
  (exists first rest1 rest2,
     annotations ed = (rest1 ++ first :: rest2)%list /\
     keyOf first = keyOf a1 /\
     (forall a, In a rest1 -> keyOf a <> keyOf a1) /\
     selectedId ed' = Some (id first)) /\
  effects ed' = (effects ed ++ [Toasted duplicateNotice])%list /\
  variant duplicateNotice <> "destructive".
Proof.
  intros a1 ed ed'.
  assert (Hin : In a1 (annotations ed)) by (left; reflexivity).
  assert (Hkey : keyOf a1
                 = triangleKey (clamp (1 # 2) 0 1) (clamp (1 # 5) 0 1) defaultColor)
    by (vm_compute; reflexivity).
  split; [exact Hin|]. split; [exact Hkey|].
  exact (addAnnotationAt_duplicate "u1" (1 # 2) (1 # 5) ed a1 Hin Hkey).
Defined.

(** ** Geometry *)

Lemma divide_nonzero (a b : Q) : ~ b == 0 -> divide a b = Ok (a / b).
Proof.
  intro Hb. unfold divide.
  destruct (Qeq_bool b 0) eqn:E; [|reflexivity].
  apply Qeq_bool_true in E. contradiction.
Qed.

Lemma divide_by_2 (a : Q) : divide a 2 = Ok (a / 2).
Proof. apply divide_nonzero. intro Hc. discriminate Hc. Qed.

Lemma divide_by_3 (a : Q) : divide a 3 = Ok (a / 3).
Proof. apply divide_nonzero. intro Hc. discriminate Hc. Qed.

(** Run the divisions by the constants 2 and 3. *)
Ltac constant_divisions :=
  repeat (first [rewrite divide_by_2 | rewrite divide_by_3]; cbn [bind]).

(** The vertices are always defined: the divisors are the constants 2 and 3. *)
Lemma triangleVertices_ok (tri : TriangleAnnotation) (width height : Q) :
  exists A B C, triangleVertices tri width height = Ok (A, B, C).
Proof.
  unfold triangleVertices. constant_divisions. eauto.
Qed.

Lemma not_nearZero_nonzero (d : Q) : ~ nearZero d -> ~ d == 0.
Proof.
  unfold nearZero. intros Hn Hd. apply Hn.
  rewrite Hd. reflexivity.
Qed.



(** What [isPointInTriangle] evaluates to, over the vertices that
    [drawTriangleOnContext] strokes: no division by zero on the way. *)
Lemma isPointInTriangle_value (px py : Q) (triangle : TriangleAnnotation)
    (videoWidth videoHeight : Q) :
  exists ax ay bx by_ cx cy : Q,
    triangleVertices triangle videoWidth videoHeight
    = Ok ((ax, ay), (bx, by_), (cx, cy)) /\
    let X := px * videoWidth in
    let Y := py * videoHeight in
    let denom := (by_ - cy) * (ax - cx) + (cx - bx) * (ay - cy) in
    let a := ((by_ - cy) * (X - cx) + (cx - bx) * (Y - cy)) / denom in
    let b := ((cy - ay) * (X - cx) + (ax - cx) * (Y - cy)) / denom in
    isPointInTriangle px py triangle videoWidth videoHeight
    = Ok (if Qltb (Qabs denom) (1 # 10000000000) then false
          else Qle_bool 0 a && Qle_bool 0 b && Qle_bool 0 (1 - a - b)).
Proof.
  unfold triangleVertices, isPointInTriangle. constant_divisions.
  do 6 eexists. split; [reflexivity|]. cbv zeta.
  match goal with
  | |- context [Qltb (Qabs ?d) _] => set (denom := d)
  end.
  destruct (Qltb (Qabs denom) (1 # 10000000000)) eqn:Hz; [reflexivity|].
  apply Qltb_false in Hz.
  assert (Hd : ~ denom == 0).
  { apply not_nearZero_nonzero. unfold nearZero. lra. }
  rewrite !divide_nonzero by exact Hd. reflexivity.
Qed.


(** A triangle of size zero is degenerate: nothing is inside it. *)
Example isPointInTriangle_degenerate :
  isPointInTriangle (1 # 2) (1 # 5)
    {| id := "a1"; x := 1 # 2; y := 1 # 5; size := 0; color := defaultColor;
       strokeWidth := defaultStrokeWidth; start := 0; end_ := 3; label := None |}
    1920 1080 = Ok false.
Proof. vm_compute. reflexivity. Qed.

(** The centroid of a default-size triangle is inside it. *)
Example isPointInTriangle_centroid :
  isPointInTriangle (1 # 2) (1 # 5) (exampleAnnotation "a1" (1 # 2) (1 # 5) 0 3)
    1920 1080 = Ok true.
Proof. vm_compute. reflexivity. Qed.

(** ** Hit testing *)

Lemma isPointInTriangle_ok (px py : Q) (triangle : TriangleAnnotation)
    (videoWidth videoHeight : Q) :
  exists hit, isPointInTriangle px py triangle videoWidth videoHeight = Ok hit.
Proof.
  destruct (isPointInTriangle_value px py triangle videoWidth videoHeight)
    as (ax & ay & bx & by_ & cx & cy & _ & Hhit).
  eexists. exact Hhit.
Qed.

(** Scanning a concatenation: the second part is looked at only when the
    first has no hit. *)
Lemma firstContaining_app (px py videoWidth videoHeight : Q)
    (l1 l2 : list TriangleAnnotation) :
  firstContaining px py videoWidth videoHeight (l1 ++ l2)%list
  = let* r := firstContaining px py videoWidth videoHeight l1 in
    match r with
    | Some a => Ok (Some a)
    | None => firstContaining px py videoWidth videoHeight l2
    end.
Proof.
  induction l1 as [|c l1 IH]; [reflexivity|].
  simpl.
  destruct (isPointInTriangle_ok px py c videoWidth videoHeight) as ([|] & Hc);
    rewrite Hc; cbn [bind]; [reflexivity | exact IH].
Qed.

(** C6: [findTriangleAtPosition] returns [null] exactly when no record that is
    active at the query time contains the point; otherwise it returns the
    last record, in creation order, that is active and contains the point. *)
Theorem findTriangleAtPosition_topmost :
  forall (px py currentTime : Q) (annotations : list TriangleAnnotation)
         (videoWidth videoHeight : Q),
    (findTriangleAtPosition px py currentTime annotations videoWidth videoHeight
     = Ok None /\
     forall a, In a annotations -> activeAt currentTime a = true ->
               isPointInTriangle px py a videoWidth videoHeight = Ok false)
    \/
    (exists earlier a later,
       annotations = (earlier ++ a :: later)%list /\
       findTriangleAtPosition px py currentTime annotations videoWidth videoHeight
       = Ok (Some a) /\
       activeAt currentTime a = true /\
       isPointInTriangle px py a videoWidth videoHeight = Ok true /\
       forall b, In b later -> activeAt currentTime b = true ->
                 isPointInTriangle px py b videoWidth videoHeight = Ok false).
Proof.
  intros px py currentTime annotations videoWidth videoHeight.
  unfold findTriangleAtPosition.
  induction annotations as [|c l IH].
  - left. split; [reflexivity | intros a []].
  - (* the head is the oldest record: it is scanned last *)
    simpl filter.
    assert (Hscan :
      firstContaining px py videoWidth videoHeight
        (rev (if activeAt currentTime c
              then c :: filter (activeAt currentTime) l
              else filter (activeAt currentTime) l))
      = let* r := firstContaining px py videoWidth videoHeight
                    (rev (filter (activeAt currentTime) l)) in
        match r with
        | Some a => Ok (Some a)
        | None => if activeAt currentTime c
                  then firstContaining px py videoWidth videoHeight [c]
                  else Ok None
        end).
    { destruct (activeAt currentTime c).
      - simpl rev. apply firstContaining_app.
      - destruct (firstContaining px py videoWidth videoHeight
                    (rev (filter (activeAt currentTime) l))) as [[a|]|f];
          reflexivity. }
    rewrite Hscan. clear Hscan.
    destruct IH as [[Hnone Hall]|(earlier & a & later & -> & Hsome & Hact & Hhit & Hlater)].
    + rewrite Hnone. cbn [bind].
      destruct (activeAt currentTime c) eqn:Hc.
      * simpl firstContaining.
        destruct (isPointInTriangle_ok px py c videoWidth videoHeight) as ([|] & Hp);
          rewrite Hp; cbn [bind].
        -- right. exists [], c, l.
           split; [reflexivity|]. split; [reflexivity|].
           split; [exact Hc|]. split; [exact Hp|]. exact Hall.
        -- left. split; [reflexivity|].
           intros a [<-|Ha] Hacta; [exact Hp | apply Hall; assumption].
      * left. split; [reflexivity|].
        intros a [<-|Ha] Hacta; [congruence | apply Hall; assumption].
    + rewrite Hsome. cbn [bind].
      right. exists (c :: earlier), a, later.
      split; [reflexivity|]. split; [reflexivity|].
      split; [exact Hact|]. split; [exact Hhit|]. exact Hlater.
Qed.

(** Two overlapping records, both active and both containing the point: the
    one created later is returned. *)
Example findTriangleAtPosition_latest_wins :
  findTriangleAtPosition (1 # 2) (1 # 5) 1
    [exampleAnnotation "old" (1 # 2) (1 # 5) 0 3;
     exampleAnnotation "new" (1 # 2) (1 # 5) 0 3;
     exampleAnnotation "later-but-inactive" (1 # 2) (1 # 5) 5 8] 1920 1080
  = Ok (Some (exampleAnnotation "new" (1 # 2) (1 # 5) 0 3)).
Proof. vm_compute. reflexivity. Qed.

(** ** Tracks *)

Section MapFacts.

Context {V : Type}.

Lemma Map_get_set (k k' : string) (v : V) (m : JsMap V) :
  Map_get k' (Map_set k v m) = if String.eqb k k' then Some v else Map_get k' m.
Proof.
  induction m as [|[k0 v0] m IH]; simpl.
  - rewrite (String.eqb_sym k' k). reflexivity.
  - destruct (String.eqb_spec k k0) as [->|Hk]; simpl.
    + destruct (String.eqb_spec k' k0) as [->|Hk'].
      * rewrite String.eqb_refl. reflexivity.
      * apply not_eq_sym in Hk'. apply String.eqb_neq in Hk'.
        rewrite Hk'. reflexivity.
    + destruct (String.eqb_spec k' k0) as [->|Hk'].
      * apply String.eqb_neq in Hk. rewrite Hk. reflexivity.
      * exact IH.
Qed.

Lemma Map_has_keys (k : string) (m : JsMap V) :
  Map_has k m = true <-> In k (keys m).
Proof.
  unfold Map_has, keys. induction m as [|[k0 v0] m IH]; simpl.
  - split; [discriminate | intros []].
  - destruct (String.eqb_spec k k0) as [->|Hk].
    + split; auto.
    + rewrite IH. split; [auto | intros [He|Hin]; [congruence | exact Hin]].
Qed.

Lemma keys_set (k : string) (v : V) (m : JsMap V) :
  keys (Map_set k v m) = if Map_has k m then keys m else (keys m ++ [k])%list.
Proof.
  unfold Map_has, keys. induction m as [|[k0 v0] m IH]; simpl; [reflexivity|].
  destruct (String.eqb_spec k k0) as [->|Hk]; simpl; [reflexivity|].
  rewrite IH. destruct (Map_get k m); reflexivity.
Qed.

Lemma NoDup_keys_set (k : string) (v : V) (m : JsMap V) :
  NoDup (keys m) -> NoDup (keys (Map_set k v m)).
Proof.
  intro Hnd. rewrite keys_set.
  destruct (Map_has k m) eqn:Hhas; [exact Hnd|].
  apply NoDup_app; [exact Hnd | repeat constructor; intros [] |].
  intros k' Hin [<-|[]].
  apply Map_has_keys in Hin. congruence.
Qed.

Lemma Map_get_In (k : string) (v : V) (m : JsMap V) :
  NoDup (keys m) -> In (k, v) m -> Map_get k m = Some v.
Proof.
  unfold keys. induction m as [|[k0 v0] m IH]; simpl; intros Hnd Hin; [destruct Hin|].
  inversion Hnd as [|? ? Hnotin Hnd']; subst.
  destruct Hin as [He|Hin].
  - inversion He; subst. rewrite String.eqb_refl. reflexivity.
  - destruct (String.eqb_spec k k0) as [->|Hk].
    + exfalso. apply Hnotin. apply in_map_iff. exists (k0, v). auto.
    + apply IH; assumption.
Qed.

End MapFacts.

Lemma existsb_app_one (k : string) (l : list TriangleAnnotation) (a : TriangleAnnotation) :
  existsb (fun b => String.eqb (keyOf b) k) (l ++ [a])
  = existsb (fun b => String.eqb (keyOf b) k) l || String.eqb (keyOf a) k.
Proof. rewrite existsb_app. simpl. rewrite orb_false_r. reflexivity. Qed.

Lemma membersOf_app_one (k : string) (l : list TriangleAnnotation) (a : TriangleAnnotation) :
  membersOf k (l ++ [a])
  = (membersOf k l ++ if String.eqb (keyOf a) k then [a] else [])%list.
Proof. unfold membersOf. rewrite filter_app. reflexivity. Qed.

Lemma membersOf_none (k : string) (l : list TriangleAnnotation) :
  existsb (fun b => String.eqb (keyOf b) k) l = false -> membersOf k l = [].
Proof.
  unfold membersOf. induction l as [|b l IH]; simpl; [reflexivity|].
  intro He. apply orb_false_iff in He. destruct He as [Hb Hl].
  rewrite Hb. apply IH. exact Hl.
Qed.

(** One step of the grouping keeps the map a grouping, of one more record. *)
Lemma groupStep_grouped (l : list TriangleAnnotation)
    (m : JsMap (list TriangleAnnotation)) (a : TriangleAnnotation) :
  grouped l m ->
  exists m', groupStep (Ok m) a = Ok m' /\ grouped (l ++ [a]) m'.
Proof.
  intros [Hnd Hget]. unfold groupStep. cbn [bind].
  set (k := keyOf a).
  set (m1 := if negb (Map_has k m) then Map_set k [] m else m).
  assert (Hnd1 : NoDup (keys m1)).
  { unfold m1. destruct (Map_has k m); simpl; [exact Hnd|].
    apply NoDup_keys_set. exact Hnd. }
  assert (Hget1 : Map_get k m1 = Some (membersOf k l)).
  { unfold m1, Map_has. rewrite (Hget k).
    destruct (existsb _ l) eqn:He; simpl.
    - rewrite Hget, He. reflexivity.
    - rewrite Map_get_set, String.eqb_refl, membersOf_none by exact He.
      reflexivity. }
  rewrite Hget1. eexists. split; [reflexivity|]. split.
  - apply NoDup_keys_set. exact Hnd1.
  - intro k'. rewrite Map_get_set, existsb_app_one, membersOf_app_one.
    fold k. destruct (String.eqb_spec k k') as [<-|Hk].
    + rewrite orb_true_r. reflexivity.
    + rewrite orb_false_r, app_nil_r.
      unfold m1. destruct (Map_has k m); simpl; [apply Hget|].
      rewrite Map_get_set. apply String.eqb_neq in Hk. rewrite Hk. apply Hget.
Qed.

Lemma grouping_grouped (l : list TriangleAnnotation) :
  exists m, fold_left groupStep l (Ok []) = Ok m /\ grouped l m.
Proof.
  induction l as [|a l IH] using rev_ind.
  - exists []. split; [reflexivity|]. split; [constructor | reflexivity].
  - destruct IH as (m & Hm & Hg).
    destruct (groupStep_grouped a Hg) as (m' & Hm' & Hg').
    exists m'. rewrite fold_left_app, Hm. simpl. auto.
Qed.

(** *** Sorting *)

Lemma insertByStart_perm (a : TriangleAnnotation) (l : list TriangleAnnotation) :
  Permutation (insertByStart a l) (a :: l).
Proof.
  induction l as [|b l IH]; simpl; [reflexivity|].
  destruct (Qle_bool (start a) (start b)); [reflexivity|].
  rewrite IH. apply perm_swap.
Qed.

Lemma sortByStart_perm (l : list TriangleAnnotation) : Permutation (sortByStart l) l.
Proof.
  induction l as [|a l IH]; simpl; [reflexivity|].
  rewrite insertByStart_perm, IH. reflexivity.
Qed.


(** *** The key is the rounded position plus the color *)

Lemma string_of_uint_plain (d : Decimal.uint) :
  hasUnderscore (NilEmpty.string_of_uint d) = false.
Proof. induction d; simpl; auto. Qed.

Lemma showZ_plain (z : Z) : hasUnderscore (showZ z) = false.
Proof.
  unfold showZ. destruct z as [|p|p]; simpl; [reflexivity| |].
  - destruct (Pos.to_uint p) eqn:E; try apply string_of_uint_plain. reflexivity.
  - destruct (Pos.to_uint p) eqn:E; try apply string_of_uint_plain. reflexivity.
Qed.

Lemma showZ_inj (z z' : Z) : showZ z = showZ z' -> z = z'.
Proof.
  unfold showZ. intro He.
  assert (Hproper : forall n, Z.to_int n <> Decimal.Pos Decimal.Nil /\
                              Z.to_int n <> Decimal.Neg Decimal.Nil).
  { intros [|p|p]; simpl; split; try discriminate;
      intros [= Hp]; exact (DecimalPos.Unsigned.to_uint_nonnil p Hp). }
  apply DecimalZ.to_int_inj.
  pose proof (NilZero.isi (Z.to_int z) (proj1 (Hproper z)) (proj2 (Hproper z))) as H1.
  pose proof (NilZero.isi (Z.to_int z') (proj1 (Hproper z')) (proj2 (Hproper z'))) as H2.
  rewrite He in H1. congruence.
Qed.

(** Two texts without underscore, each followed by an underscore: equal
    wholes have equal parts. *)
Lemma split_at_underscore (s t r r' : string) :
  hasUnderscore s = false -> hasUnderscore t = false ->
  s ++ "_" ++ r = t ++ "_" ++ r' -> s = t /\ r = r'.
Proof.
  revert t. induction s as [|c s IH]; intros [|d t] Hs Ht He; simpl in *.
  - inversion He. auto.
  - inversion He; subst. simpl in Ht. discriminate.
  - inversion He; subst. simpl in Hs. discriminate.
  - apply orb_false_iff in Hs. apply orb_false_iff in Ht.
    inversion He; subst.
    destruct (IH t (proj2 Hs) (proj2 Ht) H1) as [-> ->]. auto.
Qed.


(** *** From the map to the tracks *)

Lemma trackOf_ok (k : string) (v : list TriangleAnnotation) :
  v <> [] ->
  exists t first,
    trackOf (k, v) = Ok t /\
    triangleId t = k /\
    track_annotations t = map toTimeline (sortByStart v) /\
    In first v /\
    track_color t = color first /\
    triangleLabel t = trackLabel first.
Proof.
  intro Hne. unfold trackOf.
  pose proof (sortByStart_perm v) as Hperm.
  destruct (sortByStart v) as [|first sorted] eqn:Hs.
  - apply Permutation_nil in Hperm. congruence.
  - eexists. exists first. split; [reflexivity|]. simpl.
    repeat split. apply (Permutation_in first Hperm). left. reflexivity.
Qed.

Lemma tracksOf_ok (m : JsMap (list TriangleAnnotation)) :
  (forall k v, In (k, v) m -> v <> []) ->
  exists ts,
    tracksOf m = Ok ts /\
    map triangleId ts = keys m /\
    forall t, In t ts ->
      exists v first,
        In (triangleId t, v) m /\
        track_annotations t = map toTimeline (sortByStart v) /\
        In first v /\
        track_color t = color first /\
        triangleLabel t = trackLabel first.
Proof.
  induction m as [|[k v] m IH]; intro Hne.
  - exists []. split; [reflexivity|]. split; [reflexivity|]. intros t [].
  - destruct (@trackOf_ok k v) as (t & first & Ht & Hid & Hanns & Hin & Hcol & Hlab).
    { apply (Hne k). left. reflexivity. }
    destruct IH as (ts & Hts & Hkeys & Hall).
    { intros k' v' Hin'. apply (Hne k'). right. exact Hin'. }
    exists (t :: ts). cbn [tracksOf]. rewrite Ht, Hts. cbn [bind].
    split; [reflexivity|]. split.
    + simpl. rewrite Hid, Hkeys. reflexivity.
    + intros t' [<-|Hin'].
      * exists v, first. rewrite Hid. repeat split; auto. left. reflexivity.
      * destruct (Hall t' Hin') as (v' & first' & Hv' & Hrest).
        exists v', first'. split; [right; exact Hv' | exact Hrest].
Qed.

Lemma existsb_key (k : string) (l : list TriangleAnnotation) :
  existsb (fun b => String.eqb (keyOf b) k) l = true <->
  exists a, In a l /\ keyOf a = k.
Proof.
  rewrite existsb_exists. split; intros (a & Hin & Ha); exists a; split; auto.
  - apply String.eqb_eq. exact Ha.
  - apply String.eqb_eq. exact Ha.
Qed.

Lemma membersOf_In (k : string) (l : list TriangleAnnotation) (a : TriangleAnnotation) :
  In a (membersOf k l) <-> In a l /\ keyOf a = k.
Proof.
  unfold membersOf. rewrite filter_In, String.eqb_eq. reflexivity.
Qed.

(** What [createTriangleTracks] returns: one track per key that occurs, and
    in each track the records with that key. *)
Lemma createTriangleTracks_spec (l : list TriangleAnnotation) :
  exists ts,
    createTriangleTracks l = Ok ts /\
    NoDup (map triangleId ts) /\
    (forall k, In k (map triangleId ts) <-> exists a, In a l /\ keyOf a = k) /\
    forall t, In t ts ->
      Permutation (track_annotations t)
                  (map toTimeline (membersOf (triangleId t) l)) /\
      exists first,
        In first l /\ keyOf first = triangleId t /\
        track_color t = color first /\
        triangleLabel t = trackLabel first.
Proof.
  destruct (grouping_grouped l) as (m & Hm & Hnd & Hget).
  assert (Hentry : forall k v, In (k, v) m ->
            v = membersOf k l /\ exists a, In a l /\ keyOf a = k).
  { intros k v Hin. apply (@Map_get_In _ k v m Hnd) in Hin.
    rewrite Hget in Hin.
    destruct (existsb _ l) eqn:He; [|discriminate].
    inversion Hin. split; [reflexivity|]. apply existsb_key. exact He. }
  destruct (@tracksOf_ok m) as (ts & Hts & Hkeys & Hall).
  { intros k v Hin Hnil. destruct (Hentry k v Hin) as [Hv (a & Ha & Hk)].
    assert (Hain : In a (membersOf k l)) by (apply membersOf_In; auto).
    rewrite <- Hv, Hnil in Hain. destruct Hain. }
  exists ts. unfold createTriangleTracks. rewrite Hm. cbn [bind].
  split; [exact Hts|]. split; [rewrite Hkeys; exact Hnd|]. split.
  - intro k. rewrite Hkeys, <- Map_has_keys. unfold Map_has.
    rewrite Hget, <- existsb_key.
    destruct (existsb _ l); split; congruence.
  - intros t Ht.
    destruct (Hall t Ht) as (v & first & Hv & Hanns & Hfirst & Hcol & Hlab).
    destruct (Hentry _ _ Hv) as [-> _].
    split.
    + rewrite Hanns. apply Permutation_map. apply sortByStart_perm.
    + exists first. apply membersOf_In in Hfirst. destruct Hfirst. auto.
Qed.



(** The order of the tracks follows the order of first appearance, so it
    does change with the order of the records. *)
Example createTriangleTracks_track_order :
  let a := exampleAnnotation "a" (1 # 2) (1 # 5) 3 4 in
  let b := exampleAnnotation "b" (1 # 4) (1 # 5) 0 1 in
  (let* ts := createTriangleTracks [a; b] in Ok (map triangleId ts))
  = Ok ["50_20_#c0c5ce"; "25_20_#c0c5ce"] /\
  (let* ts := createTriangleTracks [b; a] in Ok (map triangleId ts))
  = Ok ["25_20_#c0c5ce"; "50_20_#c0c5ce"].
Proof. split; vm_compute; reflexivity. Qed.

(** ** Resize gestures on the timeline *)

Lemma timelinePointerMove_duration (minClipLen : Q) (drag : DragState)
    (container : option Rect) (clientX : Q) (ed : Editor) :
  duration (timelinePointerMove minClipLen drag container clientX ed) = duration ed.
Proof.
  unfold timelinePointerMove, onScrubPointerMove.
  destruct container as [rect|]; [|reflexivity].
  destruct drag; simpl; try reflexivity;
    try (destruct (selection ed); reflexivity).
  unfold onTimelineSeek. destruct (videoRef ed); reflexivity.
Qed.

Lemma gesture_duration (minClipLen : Q) (drag : DragState) (moves : list (Rect * Q))
    (ed : Editor) :
  duration (gesture minClipLen drag moves ed) = duration ed.
Proof.
  unfold gesture. revert ed. induction moves as [|mv moves IH]; intro ed; simpl.
  - reflexivity.
  - rewrite IH. apply timelinePointerMove_duration.
Qed.



(** Pointer-down on a handle records the bounds of the range it will work
    on: the record with the pressed id, when ids are unique, or the selection. *)
Lemma annotation_handle_down (a : TriangleAnnotation) (clientX : Q) (ed : Editor) :
  NoDup (map id (annotations ed)) ->
  In a (annotations ed) ->
  resizedRanges (startResizeLeft a clientX) ed = [(start a, end_ a)] /\
  resizedRanges (startResizeRight a clientX) ed = [(start a, end_ a)].
Proof.
  intros Hnd Hin.
  assert (H : map (fun b => (start b, end_ b))
                  (filter (fun b => String.eqb (id b) (id a)) (annotations ed))
              = [(start a, end_ a)]).
  { revert Hnd Hin. generalize (annotations ed) as l.
    induction l as [|b l IH]; intros Hnd Hin; [destruct Hin|].
    destruct Hin as [->|Hin]; simpl in *;
      inversion Hnd as [|? ? Hnotin Hnd']; subst.
    - rewrite String.eqb_refl. simpl. f_equal.
      assert (Hnone : filter (fun b => String.eqb (id b) (id a)) l = []).
      { clear IH Hnd Hnd'. induction l as [|c l IHl]; simpl; [reflexivity|].
        destruct (String.eqb_spec (id c) (id a)) as [He|Hne].
        - exfalso. apply Hnotin. left. exact He.
        - apply IHl. intro Hc. apply Hnotin. right. exact Hc. }
      rewrite Hnone. reflexivity.
    - destruct (String.eqb_spec (id b) (id a)) as [He|Hne].
      + exfalso. apply Hnotin. rewrite He. apply in_map. exact Hin.
      + apply IH; assumption. }
  split; exact H.
Qed.

Lemma selection_handle_down (minClipLen clientX : Q) (drag : DragState)
    (ed : Editor) (sel : Q * Q) :
  selection ed = Some sel ->
  resizeOrigin (startSelectionLeft (timelineProps minClipLen ed) clientX drag)
  = Some sel /\
  resizeOrigin (startSelectionRight (timelineProps minClipLen ed) clientX drag)
  = Some sel /\
  resizedRanges (startSelectionLeft (timelineProps minClipLen ed) clientX drag) ed
  = [sel] /\
  resizedRanges (startSelectionRight (timelineProps minClipLen ed) clientX drag) ed
  = [sel].
Proof.
  intro Hsel. unfold startSelectionLeft, startSelectionRight. simpl.
  rewrite Hsel. simpl. destruct sel. rewrite Hsel. auto.
Qed.




(** The range that move leaves: [4.9, 5]. *)
Example resize_left_far_right :
  let a1 := exampleAnnotation "a1" (1 # 2) (1 # 5) 2 5 in
  let drag := startResizeLeft a1 100 in
  resizedRanges drag
    (timelinePointerMove defaultMinClipLen drag (Some exampleRect) 900
       (exampleEditor 4 [a1]))
  = [(49 # 10, 5)].
Proof. vm_compute. reflexivity. Qed.


(** ** The sampling run *)

(** Past the guards, [sampleSelection] is [runSampling] on the timestamps. *)
Lemma sampleSelection_ready (fuel : nat) (host : Host) (ed : Editor) (video : Video)
    (selStart selEnd : Q) :
  readyToSample ed video selStart selEnd ->
  sampleSelection fuel host ed
  = match sampleTimes fuel selStart selEnd (duration ed) (samplingHz ed) with
    | None => None
    | Some times =>
        Some (runSampling host (Math_max (1 # 10) (samplingHz ed)) times video ed)
    end.
Proof.
  intros (Hv & Hw & Hd & Hs & Hlt). unfold sampleSelection.
  rewrite Hv, Hs.
  apply Qeq_bool_false in Hw. apply Qeq_bool_false in Hd. rewrite Hw, Hd.
  assert (Hle : Qle_bool selEnd selStart = false) by (apply Qle_bool_false; exact Hlt).
  rewrite Hle. reflexivity.
Qed.




(** *** Playback rate and play state around a run *)

(** The capture loop moves the media position and nothing else of the video. *)
Lemma captureLoop_video (host : Host) (canvas : Q * Q) (n : nat) (v : Video)
    (times : list Q) :
  forall (i : nat) (ed : Editor) (newFrames : list FrameInfo) (t : Q),
    videoRef ed = Some (withCurrentTime t v) ->
    exists t',
      videoRef (fst (captureLoop host canvas n i times ed newFrames))
      = Some (withCurrentTime t' v).
Proof.
  induction times as [|targetTime rest IH]; intros i ed newFrames t Hv.
  - exists t. exact Hv.
  - cbn [captureLoop].
    destruct (seekSettles host i).
    + apply (IH _ _ _ targetTime). simpl. rewrite Hv. reflexivity.
    + apply (IH _ _ _ t). simpl. exact Hv.
Qed.

(** A run that gets its drawing context, over a video that was paused or
    that the browser lets play again, hands the video back with the rate and
    the play state it had: only the media position has changed. *)
Lemma sampleSelection_completion_restores (host : Host) (ed : Editor) (video : Video)
    (selStart selEnd : Q) :
  readyToSample ed video selStart selEnd ->
  getContext2d host = true ->
  v_paused video = true \/ playResolves host = true ->
  exists (n : nat) (ed' : Editor) (t : Q),
    (forall fuel, (n < fuel)%nat -> sampleSelection fuel host ed = Some ed') /\
    videoRef ed' = Some (withCurrentTime t video).
Proof.
  intros Hready Hctx Hplay.
  destruct (sampleTimes_exact_terminates selStart selEnd (duration ed) (samplingHz ed))
    as (n & times & Hfuel).
  exists n.
  set (hz := Math_max (1 # 10) (samplingHz ed)).
  exists (runSampling host hz times video ed).
  assert (Hv : videoRef ed = Some video) by apply Hready.
  assert (Hrun : exists t, videoRef (runSampling host hz times video ed)
                           = Some (withCurrentTime t video)).
  { unfold runSampling. rewrite Hctx. cbn [negb].
    set (canvas := (orElse (videoWidth video) 1280, orElse (videoHeight video) 720)).
    set (v0 := withPlaybackRate 1 (withPaused true video)).
    set (ed0 := updateVideo (withPlaybackRate 1) _).
    assert (Hv0 : videoRef ed0 = Some (withCurrentTime (v_currentTime video) v0)).
    { unfold ed0. simpl. rewrite Hv. reflexivity. }
    destruct (@captureLoop_video host canvas (List.length times) v0 times 0%nat ed0 []
                (v_currentTime video) Hv0) as (t & Ht).
    destruct (captureLoop host canvas (List.length times) 0 times ed0 [])
      as [ed1 newFrames].
    simpl in Ht. exists t.
    destruct video as [ct paused rate w h]. simpl in *.
    destruct paused; simpl.
    - rewrite Ht. reflexivity.
    - destruct Hplay as [Hp|Hp]; [discriminate|]. rewrite Hp. simpl.
      rewrite Ht. reflexivity. }
  destruct Hrun as (t & Ht). exists t. split; [|exact Ht].
  intros fuel Hlt.
  rewrite (sampleSelection_ready fuel host Hready), (Hfuel fuel Hlt). reflexivity.
Qed.

(** A run that gets no drawing context returns with the video still paused
    and its rate still 1, whatever they were before. *)
Lemma sampleSelection_abort_video (host : Host) (ed : Editor) (video : Video)
    (selStart selEnd : Q) :
  readyToSample ed video selStart selEnd ->
  getContext2d host = false ->
  exists (n : nat) (ed' : Editor),
    (forall fuel, (n < fuel)%nat -> sampleSelection fuel host ed = Some ed') /\
    videoRef ed' = Some (withPlaybackRate 1 (withPaused true video)).
Proof.
  intros Hready Hctx.
  destruct (sampleTimes_exact_terminates selStart selEnd (duration ed) (samplingHz ed))
    as (n & times & Hfuel).
  exists n. eexists. split.
  - intros fuel Hlt. rewrite (sampleSelection_ready fuel host Hready), (Hfuel fuel Hlt).
    unfold runSampling. rewrite Hctx. cbn [negb]. reflexivity.
  - simpl. destruct Hready as [-> _]. reflexivity.
Qed.

(** C4 (failing input): the example video is playing at rate 2 and no drawing
    context can be had.  The run returns at the context check with the video
    still paused and its rate still forced to 1. *)
Theorem sampleSelection_abort_keeps_video_forced :
  exists (ed' : Editor) (video' : Video),
    sampleSelection 4 (exampleHost false) (exampleEditor 0 []) = Some ed' /\
    videoRef (exampleEditor 0 []) = Some exampleVideo /\
    v_paused exampleVideo = false /\
    v_playbackRate exampleVideo = 2 /\
    videoRef ed' = Some video' /\
    v_paused video' = true /\
    v_playbackRate video' = 1 /\
    isPlaying ed' = true.
Proof.
  eexists. eexists. split; [vm_compute; reflexivity|].
  repeat split.
Qed.

(** The same video and selection with a drawing context: rate 2 and the
    playing state are back after the run. *)
Example sampleSelection_completion_example :
  exists (ed' : Editor) (video' : Video),
    sampleSelection 4 (exampleHost true) (exampleEditor 0 []) = Some ed' /\
    videoRef ed' = Some video' /\
    v_paused video' = false /\
    v_playbackRate video' = 2 /\
    map time (frames ed') = [0; 0 + 1; 0 + 1 + 1].
Proof.
  eexists. eexists. split; [vm_compute; reflexivity|].
  repeat split.
Qed.

(* ================================================================== *)
(** * Further properties *)
(* ================================================================== *)

(** ** A run that gets its drawing context *)
















(** A record active over [1, 2], sampled over [0, 2.5] at 1 Hz: it is burned
    into the frames at 1 and 2 and not into the frame at 0. *)
Example sampleSelection_burn_in_example :
  let a1 := exampleAnnotation "a1" (1 # 2) (1 # 5) 1 2 in
  option_map (fun ed' => map (fun f => map id (burned (blob f))) (frames ed'))
             (sampleSelection 4 (exampleHost true) (exampleEditor 0 [a1]))
  = Some [[]; ["a1"]; ["a1"]].
Proof. vm_compute. reflexivity. Qed.



(** A seek that fails leaves the previous picture: with the second seek
    failing, the frame for timestamp 1 shows the media at 0. *)
Example sampleSelection_stale_frame :
  let host := {| getContext2d := true;
                 seekSettles := fun k => negb (Nat.eqb k 1);
                 playResolves := true;
                 createObjectURL := fun i => "blob:" ++ showZ (Z.of_nat i) |} in
  option_map (fun ed' => map (fun f => (Qred (time f), Qred (shownAt (blob f))))
                             (frames ed'))
             (sampleSelection 4 host (exampleEditor 0 []))
  = Some [(0, 0); (1, 0); (2, 2)].
Proof. vm_compute. reflexivity. Qed.

(** ** The guards of a run *)

(** X5: without a loaded video (no element, zero width or zero duration) or
    without a non-empty selection, [sampleSelection] shows one destructive
    notice and changes nothing else: no frame is released, the video is not
    touched; this takes no iteration of the timestamp loop. *)
Theorem sampleSelection_guards :
  forall (fuel : nat) (host : Host) (ed : Editor),
    videoRef ed = None \/
    fst (videoSize ed) == 0 \/
    duration ed == 0 \/
    selection ed = None \/
    (exists s e, selection ed = Some (s, e) /\ e <= s) ->
    exists notice,
      sampleSelection fuel host ed = Some (perform [Toasted notice] ed) /\
      variant notice = "destructive" /\
      (title notice = "No video loaded" \/ title notice = "No selection").
Proof.
  intros fuel host ed Hguard. unfold sampleSelection.
  destruct (videoRef ed) as [video|] eqn:Hv.
  2:{ eexists. split; [reflexivity|]. split; [reflexivity | left; reflexivity]. }
  destruct (Qeq_bool (fst (videoSize ed)) 0 || Qeq_bool (duration ed) 0) eqn:Hz.
  { eexists. split; [reflexivity|]. split; [reflexivity | left; reflexivity]. }
  apply orb_false_iff in Hz. destruct Hz as [Hw Hd].
  apply Qeq_bool_false in Hw. apply Qeq_bool_false in Hd.
  destruct (selection ed) as [[s e]|] eqn:Hs.
  2:{ eexists. split; [reflexivity|]. split; [reflexivity | right; reflexivity]. }
  destruct Hguard as [Hg|[Hg|[Hg|[Hg|(s' & e' & Hg & Hle)]]]];
    try discriminate; try contradiction.
  inversion Hg; subst s' e'.
  apply Qle_bool_true in Hle. rewrite Hle.
  eexists. split; [reflexivity|]. split; [reflexivity | right; reflexivity].
Qed.

(** No selection at all. *)
Lemma sampleSelection_guards_witness :
  let ed := setSelection None (exampleEditor 0 []) in
  (videoRef ed = None \/
   fst (videoSize ed) == 0 \/
   duration ed == 0 \/
   selection ed = None \/
   (exists s e, selection ed = Some (s, e) /\ e <= s)) /\
  exists notice,
    sampleSelection 0 (exampleHost true) ed = Some (perform [Toasted notice] ed) /\
    variant notice = "destructive" /\
    (title notice = "No video loaded" \/ title notice = "No selection").
Proof.
  intro ed.
  assert (Hguard : videoRef ed = None \/
                   fst (videoSize ed) == 0 \/
                   duration ed == 0 \/
                   selection ed = None \/
                   (exists s e, selection ed = Some (s, e) /\ e <= s)).
  { right. right. right. left. reflexivity. }
  split; [exact Hguard|].
  exact (sampleSelection_guards 0 (exampleHost true) ed Hguard).
Defined.

(** ** Creating and deleting on the overlay *)

Lemma find_key_none (key : string) (l : list TriangleAnnotation) :
  (forall a, In a l -> keyOf a <> key) ->
  find (fun a => String.eqb (triangleKey (x a) (y a) (color a)) key) l = None.
Proof.
  intro Hfree. induction l as [|a l IH]; [reflexivity|]. simpl.
  destruct (String.eqb_spec (triangleKey (x a) (y a) (color a)) key) as [He|Hne].
  - exfalso. apply (Hfree a); [left; reflexivity | exact He].
  - apply IH. intros b Hb. apply Hfree. right. exact Hb.
Qed.

Lemma find_app_none {A} (f : A -> bool) (l l' : list A) :
  find f l = None -> find f (l ++ l') = find f l'.
Proof.
  induction l as [|a l IH]; intro Hnone; [reflexivity|]. simpl in *.
  destruct (f a); [discriminate | apply IH; exact Hnone].
Qed.

(** On a free key [addAnnotationAt] appends one record of the default look at
    the clamped position and selects it. *)
Lemma addAnnotationAt_fresh (uuid : string) (xNorm yNorm : Q) (ed : Editor) :
  (forall a, In a (annotations ed) ->
             keyOf a <> triangleKey (clamp xNorm 0 1) (clamp yNorm 0 1) defaultColor) ->
  exists anno,
    addAnnotationAt uuid xNorm yNorm ed
    = setSelectedId (Some uuid) (setAnnotations (annotations ed ++ [anno])%list ed) /\
    id anno = uuid /\
    x anno = clamp xNorm 0 1 /\
    y anno = clamp yNorm 0 1 /\
    color anno = defaultColor /\
    size anno = defaultSize /\
    start anno = currentTime ed.
Proof.
  intro Hfree. unfold addAnnotationAt.
  rewrite (find_key_none _ Hfree).
  eexists. split; [reflexivity|]. repeat split.
Qed.

(** X6: creating a record and deleting the selection right after is an undo:
    when the click lands on a free key and the new id is not empty and not in
    use, the collection is back to what it was and nothing is selected. *)
Theorem add_then_remove :
  forall (uuid : string) (xNorm yNorm : Q) (ed : Editor),
    uuid <> "" ->
    (forall a, In a (annotations ed) -> id a <> uuid) ->
    (forall a, In a (annotations ed) ->
               keyOf a <> triangleKey (clamp xNorm 0 1) (clamp yNorm 0 1) defaultColor) ->
    let ed' := removeSelected (addAnnotationAt uuid xNorm yNorm ed) in
    annotations ed' = annotations ed /\
    selectedId ed' = None.
Proof.
  intros uuid xNorm yNorm ed Hne Hids Hfree.
  destruct (addAnnotationAt_fresh uuid xNorm yNorm ed Hfree)
    as (anno & -> & Hid & _).
  unfold removeSelected. simpl.
  apply String.eqb_neq in Hne. rewrite Hne. simpl.
  split; [|reflexivity].
  rewrite filter_app. simpl. rewrite Hid, String.eqb_refl. simpl.
  rewrite app_nil_r.
  assert (Hkeep : forall l : list TriangleAnnotation,
            (forall a, In a l -> id a <> uuid) ->
            filter (fun a => negb (String.eqb (id a) uuid)) l = l).
  { induction l as [|a l IH]; intro Hl; [reflexivity|]. simpl.
    assert (Ha : String.eqb (id a) uuid = false).
    { apply String.eqb_neq. apply Hl. left. reflexivity. }
    rewrite Ha. simpl. f_equal. apply IH. intros b Hb. apply Hl. right. exact Hb. }
  apply Hkeep. exact Hids.
Qed.

Lemma add_then_remove_witness :
  let ed := exampleEditor 4 [exampleAnnotation "a1" (1 # 4) (1 # 5) 2 5] in
  "u1" <> "" /\
  (forall a, In a (annotations ed) -> id a <> "u1") /\
  (forall a, In a (annotations ed) ->
             keyOf a <> triangleKey (clamp (1 # 2) 0 1) (clamp (1 # 5) 0 1) defaultColor) /\
  annotations (removeSelected (addAnnotationAt "u1" (1 # 2) (1 # 5) ed))
  = annotations ed /\
  selectedId (removeSelected (addAnnotationAt "u1" (1 # 2) (1 # 5) ed)) = None.
Proof.
  intro ed.
  assert (H1 : "u1" <> "") by discriminate.
  assert (H2 : forall a, In a (annotations ed) -> id a <> "u1").
  { intros a [<-|[]]. discriminate. }
  assert (H3 : forall a, In a (annotations ed) ->
             keyOf a <> triangleKey (clamp (1 # 2) 0 1) (clamp (1 # 5) 0 1) defaultColor).
  { intros a [<-|[]]. vm_compute. discriminate. }
  split; [exact H1|]. split; [exact H2|]. split; [exact H3|].
  exact (@add_then_remove "u1" (1 # 2) (1 # 5) ed H1 H2 H3).
Defined.

(** X7: a second creation at the same position adds nothing, whatever the
    first one did: the collection after two calls is the collection after
    one, and the second call ends with the duplicate notice. *)
Theorem addAnnotationAt_twice :
  forall (uuid1 uuid2 : string) (xNorm yNorm : Q) (ed : Editor),
    let once := addAnnotationAt uuid1 xNorm yNorm ed in
    let twice := addAnnotationAt uuid2 xNorm yNorm once in
    annotations twice = annotations once /\
    effects twice = (effects once ++ [Toasted duplicateNotice])%list.
Proof.
  intros uuid1 uuid2 xNorm yNorm ed once twice.
  set (key := triangleKey (clamp xNorm 0 1) (clamp yNorm 0 1) defaultColor).
  assert (Hfound : exists first,
            find (fun a => String.eqb (triangleKey (x a) (y a) (color a)) key)
                 (annotations once) = Some first).
  { unfold once, addAnnotationAt. fold key.
    destruct (find _ (annotations ed)) as [existing|] eqn:Hf; simpl.
    - exists existing. exact Hf.
    - eexists. rewrite (find_app_none _ _ _ Hf). simpl.
      fold key. rewrite String.eqb_refl. reflexivity. }
  destruct Hfound as (first & Hfirst).
  unfold twice, addAnnotationAt. fold key. rewrite Hfirst.
  split; reflexivity.
Qed.

(** ** Clicking and dragging on the overlay *)

Lemma clamp_unit (v : Q) : 0 <= clamp v 0 1 <= 1.
Proof.
  split; [apply clamp_ge_min; lra | apply clamp_le_max].
Qed.

Lemma addAnnotationAt_annotations (uuid : string) (xNorm yNorm : Q) (ed : Editor) :
  annotations (addAnnotationAt uuid xNorm yNorm ed) = annotations ed \/
  exists anno,
    annotations (addAnnotationAt uuid xNorm yNorm ed)
    = (annotations ed ++ [anno])%list /\
    id anno = uuid /\
    x anno = clamp xNorm 0 1 /\
    y anno = clamp yNorm 0 1 /\
    selectedId (addAnnotationAt uuid xNorm yNorm ed) = Some uuid.
Proof.
  unfold addAnnotationAt.
  destruct (find _ (annotations ed)) as [existing|]; [left; reflexivity|].
  right. eexists. split; [reflexivity|]. repeat split.
Qed.

(** What a drag step does to the collection. *)
Lemma onAnnoPointerMove_spec (layer : option LayerRect) (clientX clientY : Q)
    (ov ov' : Overlay) :
  onAnnoPointerMove layer clientX clientY ov = Ok ov' ->
  ov' = ov \/
  exists dragged x' y',
    draggingAnnoId ov = Some dragged /\
    suppressClick ov' = suppressClick ov /\
    draggingAnnoId ov' = draggingAnnoId ov /\
    editor ov'
    = setAnnotations
        (map (fun a =>
                if String.eqb (id a) dragged
                then {| id := id a; x := clamp x' 0 1; y := clamp y' 0 1;
                        size := size a; color := color a;
                        strokeWidth := strokeWidth a;
                        start := start a; end_ := end_ a; label := label a |}
                else a)
             (annotations (editor ov)))
        (editor ov).
Proof.
  unfold onAnnoPointerMove, truthy.
  destruct (draggingAnnoId ov) as [dragged|] eqn:Hd; [|intros [= <-]; left; reflexivity].
  destruct (String.eqb dragged ""); [intros [= <-]; left; reflexivity|].
  destruct layer as [rect|]; [|intros [= <-]; left; reflexivity].
  unfold divide.
  destruct (Qeq_bool (layer_width rect) 0); [discriminate|]. cbn [bind].
  destruct (Qeq_bool (layer_height rect) 0); [discriminate|]. cbn [bind].
  intros [= <-]. right. do 3 eexists. simpl. repeat split.
Qed.

(** X8: the handlers of the overlay keep every record inside the frame: if
    all positions are within [[0, 1]] before a click or a drag step on a layer
    of nonzero width and height, they are within [[0, 1]] after it, wherever
    the pointer is. *)
Theorem overlay_keeps_in_frame :
  forall (layer : option LayerRect) (uuid : string) (clientX clientY : Q)
         (ov ov' : Overlay),
    inFrame (editor ov) ->
    onOverlayClick layer uuid clientX clientY ov = Ok ov' \/
    onAnnoPointerMove layer clientX clientY ov = Ok ov' ->
    inFrame (editor ov').
Proof.
  intros layer uuid clientX clientY ov ov' Hin [Hclick|Hmove].
  - unfold onOverlayClick in Hclick.
    destruct layer as [rect|]; [|inversion Hclick; subst; exact Hin].
    destruct (suppressClick ov); [inversion Hclick; subst; exact Hin|].
    destruct (divide (clientX - layer_left rect) (layer_width rect)) as [px|];
      [|discriminate]. cbn [bind] in Hclick.
    destruct (divide (clientY - layer_top rect) (layer_height rect)) as [py|];
      [|discriminate]. cbn [bind] in Hclick.
    destruct (findTriangleAtPosition _ _ _ _ _ _) as [[clicked|]|]; [| |discriminate];
      cbn [bind] in Hclick; inversion Hclick; subst; clear Hclick.
    + exact Hin.
    + intros a Ha. cbn [editor] in Ha.
      destruct (addAnnotationAt_annotations uuid px py (editor ov))
        as [Hsame|(anno & Happ & _ & Hx & Hy & _)].
      * rewrite Hsame in Ha. apply Hin. exact Ha.
      * rewrite Happ in Ha. apply in_app_or in Ha.
        destruct Ha as [Ha|[<-|[]]]; [apply Hin; exact Ha|].
        rewrite Hx, Hy. split; apply clamp_unit.
  - destruct (onAnnoPointerMove_spec _ _ _ _ Hmove)
      as [->|(dragged & x' & y' & _ & _ & _ & ->)]; [exact Hin|].
    intros a Ha. simpl in Ha. apply in_map_iff in Ha.
    destruct Ha as (b & <- & Hb).
    destruct (String.eqb (id b) dragged); [|apply Hin; exact Hb].
    simpl. split; apply clamp_unit.
Qed.

Lemma overlay_keeps_in_frame_witness :
  let layer := {| layer_left := 0; layer_top := 0;
                  layer_width := 800; layer_height := 450 |} in
  let ov := onAnnoPointerDown "a1"
              {| editor := exampleEditor 4 [exampleAnnotation "a1" (1 # 2) (1 # 5) 2 5];
                 suppressClick := false; draggingAnnoId := None |} in
  exists ov',
    inFrame (editor ov) /\
    (onOverlayClick (Some layer) "u1" 2000 (-30) ov = Ok ov' \/
     onAnnoPointerMove (Some layer) 2000 (-30) ov = Ok ov') /\
    inFrame (editor ov').
Proof.
  intros layer ov.
  assert (Hin : inFrame (editor ov)).
  { intros a [<-|[]]. simpl. split; split; discriminate. }
  eexists. split; [exact Hin|].
  assert (Hmove : onAnnoPointerMove (Some layer) 2000 (-30) ov = Ok _)
    by (vm_compute; reflexivity).
  split; [right; exact Hmove|].
  exact (@overlay_keeps_in_frame (Some layer) "u1" 2000 (-30) ov _ Hin
           (or_intror Hmove)).
Defined.

(** X9: a drag step moves the dragged record and nothing else: the records
    stay in the same order, each keeps its id, size, color, stroke, time
    range and label, and a record with another id is untouched. *)
Theorem drag_moves_only_position :
  forall (layer : option LayerRect) (clientX clientY : Q) (ov ov' : Overlay),
    onAnnoPointerMove layer clientX clientY ov = Ok ov' ->
    Forall2 (fun a a' =>
               sameButPosition a a' /\
               (draggingAnnoId ov <> Some (id a) -> a' = a))
            (annotations (editor ov)) (annotations (editor ov')) /\
    selectedId (editor ov') = selectedId (editor ov) /\
    selection (editor ov') = selection (editor ov) /\
    frames (editor ov') = frames (editor ov).
Proof.
  intros layer clientX clientY ov ov' Hmove.
  assert (Hrefl : forall l : list TriangleAnnotation,
            Forall2 (fun a a' =>
                       sameButPosition a a' /\
                       (draggingAnnoId ov <> Some (id a) -> a' = a)) l l).
  { induction l; constructor; auto. unfold sameButPosition. repeat split. }
  destruct (onAnnoPointerMove_spec _ _ _ _ Hmove)
    as [->|(dragged & x' & y' & Hd & _ & _ & ->)]; [auto|].
  simpl. split; [|auto].
  induction (annotations (editor ov)) as [|a l IH]; simpl; constructor; [|exact IH].
  destruct (String.eqb_spec (id a) dragged) as [He|Hne].
  - split; [unfold sameButPosition; simpl; repeat split|].
    intro Hneq. exfalso. apply Hneq. rewrite Hd, He. reflexivity.
  - split; [unfold sameButPosition; repeat split | reflexivity].
Qed.

Lemma drag_moves_only_position_witness :
  let layer := {| layer_left := 0; layer_top := 0;
                  layer_width := 800; layer_height := 450 |} in
  let ov := onAnnoPointerDown "a1"
              {| editor := exampleEditor 4 [exampleAnnotation "a1" (1 # 2) (1 # 5) 2 5;
                                            exampleAnnotation "a2" (1 # 4) (1 # 5) 0 3];
                 suppressClick := false; draggingAnnoId := None |} in
  exists ov',
    onAnnoPointerMove (Some layer) 200 90 ov = Ok ov' /\
    Forall2 (fun a a' =>
               sameButPosition a a' /\
               (draggingAnnoId ov <> Some (id a) -> a' = a))
            (annotations (editor ov)) (annotations (editor ov')) /\
    selectedId (editor ov') = selectedId (editor ov) /\
    selection (editor ov') = selection (editor ov) /\
    frames (editor ov') = frames (editor ov).
Proof.
  intros layer ov. eexists.
  assert (Hmove : onAnnoPointerMove (Some layer) 200 90 ov = Ok _)
    by (vm_compute; reflexivity).
  split; [exact Hmove|].
  exact (@drag_moves_only_position (Some layer) 200 90 ov _ Hmove).
Defined.

Lemma fold_raise {A B} (f : A -> B -> Result A) (l : list B) (e : Fault) :
  fold_left (fun r b => let* o := r in f o b) l (Raise e) = Raise e.
Proof.
  induction l as [|b l IH]; simpl; [reflexivity | exact IH].
Qed.

Lemma dragSteps_flag (layer : LayerRect) (steps : list (Q * Q)) (ov dragged : Overlay) :
  dragSteps layer steps ov = Ok dragged ->
  suppressClick dragged = suppressClick ov.
Proof.
  unfold dragSteps. revert ov.
  induction steps as [|step steps IH]; intros ov Hfold; simpl in Hfold.
  - inversion Hfold. reflexivity.
  - destruct (onAnnoPointerMove (Some layer) (fst step) (snd step) ov) as [o|e] eqn:Hm.
    + rewrite (IH _ Hfold).
      destruct (onAnnoPointerMove_spec _ _ _ _ Hm)
        as [->|(_ & _ & _ & _ & Hs & _)]; [reflexivity | exact Hs].
    + rewrite (fold_raise (fun o step =>
                 onAnnoPointerMove (Some layer) (fst step) (snd step) o)) in Hfold.
      discriminate.
Qed.

(** X10: a click that reaches the overlay right after a drag, before the
    reset that pointer-up schedules has run, is swallowed, once: after
    pointer-down on a triangle, any drag steps and pointer-up, the click
    handler changes nothing in the editor (no record is selected or created
    under the pointer) and clears the flag, so that the click after it is
    handled again. *)
Theorem click_after_drag_is_swallowed :
  forall (layer : LayerRect) (target uuid : string) (clientX clientY : Q)
         (steps : list (Q * Q)) (ov dragged : Overlay),
    dragSteps layer steps (onAnnoPointerDown target ov) = Ok dragged ->
    onOverlayClick (Some layer) uuid clientX clientY (onAnnoPointerUp dragged)
    = Ok {| editor := editor dragged; suppressClick := false;
            draggingAnnoId := None |}.
Proof.
  intros layer target uuid clientX clientY steps ov dragged Hdrag.
  apply dragSteps_flag in Hdrag. simpl in Hdrag.
  unfold onOverlayClick, onAnnoPointerUp. cbn [suppressClick editor draggingAnnoId].
  rewrite Hdrag. reflexivity.
Qed.

Lemma click_after_drag_is_swallowed_witness :
  let layer := {| layer_left := 0; layer_top := 0;
                  layer_width := 800; layer_height := 450 |} in
  let ov := {| editor := exampleEditor 4 [exampleAnnotation "a1" (1 # 2) (1 # 5) 2 5];
               suppressClick := false; draggingAnnoId := None |} in
  exists dragged,
    dragSteps layer [(200, 90); (240, 100)] (onAnnoPointerDown "a1" ov) = Ok dragged /\
    onOverlayClick (Some layer) "u1" 240 100 (onAnnoPointerUp dragged)
    = Ok {| editor := editor dragged; suppressClick := false;
            draggingAnnoId := None |}.
Proof.
  intros layer ov. eexists.
  assert (Hdrag : dragSteps layer [(200, 90); (240, 100)] (onAnnoPointerDown "a1" ov)
                  = Ok _) by (vm_compute; reflexivity).
  split; [exact Hdrag|].
  exact (@click_after_drag_is_swallowed layer "a1" "u1" 240 100 _ ov _ Hdrag).
Defined.
(* ================================================================== *)
(** * Transport: seeking and the loaded-metadata handler *)
(* ================================================================== *)

Lemma orElse_0 (a : Q) : orElse a 0 == a.
Proof.
  unfold orElse. destruct (Qeq_bool a 0) eqn:Ha; [|reflexivity].
  apply Qeq_bool_true in Ha. symmetry. exact Ha.
Qed.

Lemma clamp_inside (v lo hi : Q) : lo <= v <= hi -> clamp v lo hi == v.
Proof.
  intros [Hlo Hhi]. unfold clamp.
  destruct (Math_max_cases lo v) as [[H1 Hmax]|[H1 Hmax]]; rewrite Hmax;
    [destruct (Math_min_cases hi v) as [[H2 Hmin]|[H2 Hmin]]
    |destruct (Math_min_cases hi lo) as [[H2 Hmin]|[H2 Hmin]]];
    rewrite Hmin; lra.
Qed.

(** X11: a relative seek with a video loaded puts the video position within
    [[0, duration]] whatever the step, moves it by exactly [delta] when the
    target is inside that range, and changes nothing but the position: play
    state and rate of the video and the editor state stay. *)
Theorem seekBy_within_duration :
  forall (delta : Q) (ed : Editor) (video : Video),
    videoRef ed = Some video ->
    0 <= duration ed ->
    exists video',
      videoRef (seekBy delta ed) = Some video' /\
      0 <= v_currentTime video' <= duration ed /\
      (0 <= v_currentTime video + delta <= duration ed ->
       v_currentTime video' == v_currentTime video + delta) /\
      v_paused video' = v_paused video /\
      v_playbackRate video' = v_playbackRate video /\
      seekBy delta ed = setVideo (Some video') ed.
Proof.
  intros delta ed video Hv Hd. unfold seekBy. rewrite Hv.
  eexists. split; [reflexivity|].
  cbn [v_currentTime v_paused v_playbackRate withCurrentTime].
  pose proof (orElse_0 (duration ed)) as Ho.
  repeat split.
  - apply clamp_ge_min. lra.
  - pose proof (clamp_le_max (v_currentTime video + delta) 0 (orElse (duration ed) 0)).
    lra.
  - intros Hin. apply clamp_inside. lra.
Qed.

Lemma seekBy_within_duration_witness :
  exists video',
    videoRef (seekBy 25 (exampleEditor 4 [])) = Some video' /\
    0 <= v_currentTime video' <= duration (exampleEditor 4 []) /\
    (0 <= v_currentTime exampleVideo + 25 <= duration (exampleEditor 4 []) ->
     v_currentTime video' == v_currentTime exampleVideo + 25) /\
    v_paused video' = v_paused exampleVideo /\
    v_playbackRate video' = v_playbackRate exampleVideo /\
    seekBy 25 (exampleEditor 4 []) = setVideo (Some video') (exampleEditor 4 []).
Proof.
  apply (@seekBy_within_duration 25 (exampleEditor 4 []) exampleVideo).
  - reflexivity.
  - simpl. lra.
Defined.

(** X12: when the metadata of a video of positive duration [d] and nonzero
    width has loaded, the playhead is 0, the selection is [[0, min(30, d)]],
    inside the video, and the guards of a sampling run pass; with duration 0
    the selection is left as it was. *)
Theorem onLoaded_default_selection :
  forall (d : Q) (ed : Editor) (video : Video),
    videoRef ed = Some video ->
    0 <= d ->
    let ed' := onLoaded d ed in
    currentTime ed' = 0 /\
    duration ed' == d /\
    (d == 0 -> selection ed' = selection ed) /\
    (0 < d ->
     selection ed' = Some (0, Math_min 30 d) /\
     Math_min 30 d <= d /\
     (~ videoWidth video == 0 -> readyToSample ed' video 0 (Math_min 30 d))).
Proof.
  intros d ed video Hv Hd. cbv zeta. unfold onLoaded. rewrite Hv.
  pose proof (orElse_0 d) as Ho.
  assert (Hmin : 0 < d -> Math_min 30 (orElse d 0) = Math_min 30 d).
  { intro Hpos. unfold orElse.
    destruct (Qeq_bool d 0) eqn:Hz; [|reflexivity].
    apply Qeq_bool_true in Hz. lra. }
  destruct (Qltb 0 (Math_min 30 (orElse d 0))) eqn:Hlt.
  - apply Qltb_true in Hlt.
    pose proof (Math_min_le_r 30 (orElse d 0)) as Hle.
    assert (Hpos : 0 < d) by lra.
    rewrite (Hmin Hpos) in *.
    pose proof (Math_min_le_r 30 d).
    unfold readyToSample.
    cbn [currentTime duration selection videoRef videoSize fst snd
         setSelection setCurrentTime setVideoSize setDuration].
    split; [reflexivity|]. split; [exact Ho|]. split; [intro; lra|].
    intros _. split; [reflexivity|]. split; [assumption|].
    intro Hw. repeat split; try assumption.
    rewrite Ho. lra.
  - apply Qltb_false in Hlt.
    cbn [currentTime duration selection videoRef videoSize fst snd
         setSelection setCurrentTime setVideoSize setDuration].
    split; [reflexivity|]. split; [exact Ho|]. split; [reflexivity|].
    intro Hpos. exfalso.
    destruct (Math_min_cases 30 (orElse d 0)) as [[_ Hm]|[_ Hm]]; rewrite Hm in Hlt; lra.
Qed.

Lemma onLoaded_default_selection_witness :
  let ed' := onLoaded 45 (exampleEditor 4 []) in
  currentTime ed' = 0 /\
  duration ed' == 45 /\
  (45 == 0 -> selection ed' = selection (exampleEditor 4 [])) /\
  (0 < 45 ->
   selection ed' = Some (0, Math_min 30 45) /\
   Math_min 30 45 <= 45 /\
   (~ videoWidth exampleVideo == 0 -> readyToSample ed' exampleVideo 0 (Math_min 30 45))).
Proof.
  apply (@onLoaded_default_selection 45 (exampleEditor 4 []) exampleVideo).
  - reflexivity.
  - lra.
Defined.
(* ================================================================== *)
(** * The triangle that is drawn and the triangle that is hit *)
(* ================================================================== *)

Lemma sqrt3_bounds : 17 # 10 < sqrt3 /\ sqrt3 < 18 # 10.
Proof. unfold sqrt3. split; reflexivity. Qed.


(** X14: a click on the position of a record hits its triangle, with the
    three barycentric weights equal, as soon as the side of the triangle is
    at least a ten-thousandth of a pixel. *)
Theorem isPointInTriangle_centre :
  forall (triangle : TriangleAnnotation) (videoWidth videoHeight : Q),
    1 # 10000 <= size triangle * Math_min videoWidth videoHeight ->
    isPointInTriangle (x triangle) (y triangle) triangle videoWidth videoHeight
    = Ok true.
Proof.
  intros triangle videoWidth videoHeight Hside.
  unfold isPointInTriangle. constant_divisions. cbv zeta.
  set (s := size triangle * Math_min videoWidth videoHeight) in *. clearbody s.
  destruct sqrt3_bounds as [Hr _]. set (r := sqrt3) in *. clearbody r.
  match goal with
  | |- context [Qltb (Qabs ?d) _] => set (denom := d)
  end.
  assert (Hden : denom == - (s * s * r * (1 # 2))) by (unfold denom; field).
  assert (Hss : (1 # 100000000) <= s * s) by nra.
  assert (Hqr : (17 # 1000000000) <= s * s * r).
  { set (q := s * s) in *. clearbody q. nra. }
  assert (Hneg : denom <= - (8 # 1000000000)) by (rewrite Hden; lra).
  assert (Habs : Qabs denom == - denom) by (apply Qabs_neg; lra).
  assert (Hz : Qltb (Qabs denom) (1 # 10000000000) = false).
  { apply Qltb_false. rewrite Habs. lra. }
  rewrite Hz.
  assert (Hd : ~ denom == 0) by lra.
  rewrite !divide_nonzero by exact Hd. cbn [bind].
  assert (Hs : ~ s == 0) by lra.
  assert (Hr0 : ~ r == 0) by lra.
  match goal with
  | |- Ok (Qle_bool 0 (?na / denom) && Qle_bool 0 (?nb / denom) && Qle_bool 0 ?c) = _ =>
      assert (Hna : na == (1 # 3) * denom) by (unfold denom; field);
      assert (Hnb : nb == (1 # 3) * denom) by (unfold denom; field);
      assert (Ha : na / denom == 1 # 3) by (rewrite Hna; field; exact Hd);
      assert (Hb : nb / denom == 1 # 3) by (rewrite Hnb; field; exact Hd);
      assert (Ea : Qle_bool 0 (na / denom) = true) by (apply Qle_bool_true; lra);
      assert (Eb : Qle_bool 0 (nb / denom) = true) by (apply Qle_bool_true; lra);
      assert (Ec : Qle_bool 0 c = true) by (apply Qle_bool_true; lra);
      rewrite Ea, Eb, Ec
  end.
  reflexivity.
Qed.

Lemma isPointInTriangle_centre_witness :
  1 # 10000 <= size (exampleAnnotation "a1" (1 # 2) (1 # 5) 2 5) * Math_min 1920 1080 /\
  isPointInTriangle (1 # 2) (1 # 5) (exampleAnnotation "a1" (1 # 2) (1 # 5) 2 5)
                    1920 1080
  = Ok true.
Proof.
  assert (Hside : 1 # 10000
                  <= size (exampleAnnotation "a1" (1 # 2) (1 # 5) 2 5)
                     * Math_min 1920 1080)
    by (vm_compute; discriminate).
  split; [exact Hside|].
  exact (@isPointInTriangle_centre (exampleAnnotation "a1" (1 # 2) (1 # 5) 2 5)
           1920 1080 Hside).
Defined.

Lemma isPointInTriangle_too_small (px py : Q) (triangle : TriangleAnnotation)
    (videoWidth videoHeight : Q) :
  Qabs (size triangle * Math_min videoWidth videoHeight) <= 1 # 100000 ->
  isPointInTriangle px py triangle videoWidth videoHeight = Ok false.
Proof.
  intros Hside.
  unfold isPointInTriangle. constant_divisions. cbv zeta.
  set (s := size triangle * Math_min videoWidth videoHeight) in *. clearbody s.
  destruct sqrt3_bounds as [Hr Hr']. set (r := sqrt3) in *. clearbody r.
  match goal with
  | |- context [Qltb (Qabs ?d) _] => set (denom := d)
  end.
  assert (Hden : denom == - (s * s * r * (1 # 2))) by (unfold denom; field).
  apply Qabs_Qle_condition in Hside. destruct Hside as [Hlo Hhi].
  assert (Hss : s * s <= 1 # 10000000000) by nra.
  assert (Hss0 : 0 <= s * s) by nra.
  assert (Hqr : 0 <= s * s * r <= (18 # 100000000000)).
  { set (q := s * s) in *. clearbody q. split; nra. }
  assert (Hz : Qltb (Qabs denom) (1 # 10000000000) = true).
  { apply Qltb_true. apply Qabs_Qlt_condition. rewrite Hden. split; lra. }
  rewrite Hz. reflexivity.
Qed.

Lemma firstContaining_none (px py videoWidth videoHeight : Q)
    (candidates : list TriangleAnnotation) :
  (forall a, In a candidates ->
             isPointInTriangle px py a videoWidth videoHeight = Ok false) ->
  firstContaining px py videoWidth videoHeight candidates = Ok None.
Proof.
  induction candidates as [|a rest IH]; intros Hall; simpl; [reflexivity|].
  rewrite (Hall a (or_introl eq_refl)). cbn [bind].
  apply IH. intros b Hb. apply Hall. right. exact Hb.
Qed.

(** X15: triangles that are degenerate on screen cannot be clicked: when the
    side of every record is at most a hundred-thousandth of a pixel, as it is
    while the size of the video is still 0 by 0, no position hits a triangle
    and the lookup returns null, without a division by zero. *)
Theorem findTriangleAtPosition_degenerate :
  forall (px py currentTime : Q) (annotations : list TriangleAnnotation)
         (videoWidth videoHeight : Q),
    (forall a, In a annotations ->
               Qabs (size a * Math_min videoWidth videoHeight) <= 1 # 100000) ->
    findTriangleAtPosition px py currentTime annotations videoWidth videoHeight
    = Ok None.
Proof.
  intros px py currentTime annotations videoWidth videoHeight Hall.
  unfold findTriangleAtPosition. apply firstContaining_none.
  intros a Ha. apply isPointInTriangle_too_small. apply Hall.
  apply in_rev in Ha. apply filter_In in Ha. tauto.
Qed.

Lemma findTriangleAtPosition_degenerate_witness :
  let annos := [exampleAnnotation "a1" (1 # 2) (1 # 5) 2 5] in
  (forall a, In a annos -> Qabs (size a * Math_min 0 0) <= 1 # 100000) /\
  findTriangleAtPosition (1 # 2) (1 # 5) 3 annos 0 0 = Ok None.
Proof.
  intros annos.
  assert (Hall : forall a, In a annos -> Qabs (size a * Math_min 0 0) <= 1 # 100000).
  { intros a [<-|[]]. vm_compute. discriminate. }
  split; [exact Hall|].
  exact (@findTriangleAtPosition_degenerate (1 # 2) (1 # 5) 3 annos 0 0 Hall).
Defined.
(* ================================================================== *)
(** * More on the tracks *)
(* ================================================================== *)

Lemma insertByStart_ascending (a : TriangleAnnotation) (l : list TriangleAnnotation) :
  ascending (map start l) -> ascending (map start (insertByStart a l)).
Proof.
  induction l as [|b l IH]; simpl; intros Hs.
  - split; [constructor | exact I].
  - destruct Hs as [Hb Hl].
    destruct (Qle_bool (start a) (start b)) eqn:E; simpl.
    + apply Qle_bool_true in E. split; [|split; assumption].
      constructor; [exact E|].
      apply Forall_impl with (2 := Hb). intros s Hs. lra.
    + apply Qle_bool_false in E. split; [|apply IH; exact Hl].
      apply Forall_forall. intros s Hin.
      apply in_map_iff in Hin. destruct Hin as (c & <- & Hc).
      apply (Permutation_in c (insertByStart_perm a l)) in Hc.
      destruct Hc as [<-|Hc]; [lra|].
      apply (proj1 (Forall_forall _ _) Hb). apply in_map. exact Hc.
Qed.

Lemma sortByStart_ascending (l : list TriangleAnnotation) :
  ascending (map start (sortByStart l)).
Proof.
  induction l as [|a l IH]; simpl; [exact I|].
  apply insertByStart_ascending. exact IH.
Qed.

Lemma map_start_toTimeline (l : list TriangleAnnotation) :
  map tl_start (map toTimeline l) = map start l.
Proof. rewrite map_map. reflexivity. Qed.

(** The tracks are made from the entries of the map, one by one. *)
Lemma tracksOf_entries (m : JsMap (list TriangleAnnotation)) (ts : list TriangleTrack) :
  tracksOf m = Ok ts -> Forall2 (fun entry t => trackOf entry = Ok t) m ts.
Proof.
  revert ts. induction m as [|entry m IH]; intros ts Hts; cbn [tracksOf] in Hts.
  - inversion Hts. constructor.
  - destruct (trackOf entry) as [t|e] eqn:Ht; [|discriminate]. cbn [bind] in Hts.
    destruct (tracksOf m) as [ts'|e]; [|discriminate]. cbn [bind] in Hts.
    inversion Hts; subst. constructor; [exact Ht | apply IH; reflexivity].
Qed.

Lemma trackOf_first (k : string) (v : list TriangleAnnotation) (t : TriangleTrack) :
  trackOf (k, v) = Ok t ->
  exists first rest,
    sortByStart v = first :: rest /\
    triangleId t = k /\
    track_annotations t = map toTimeline (first :: rest) /\
    track_color t = color first /\
    triangleLabel t = trackLabel first.
Proof.
  unfold trackOf. destruct (sortByStart v) as [|first rest]; [discriminate|].
  intros [= <-]. exists first, rest. repeat split.
Qed.

Lemma grouped_entry (l : list TriangleAnnotation) (m : JsMap (list TriangleAnnotation))
    (k : string) (v : list TriangleAnnotation) :
  grouped l m -> In (k, v) m -> v = membersOf k l.
Proof.
  intros [Hnd Hget] Hin. apply (@Map_get_In _ k v m Hnd) in Hin.
  rewrite Hget in Hin.
  destruct (existsb _ l); [|discriminate]. inversion Hin. reflexivity.
Qed.

(** The map and the tracks of a run of [createTriangleTracks]. *)
Lemma createTriangleTracks_run (l : list TriangleAnnotation) :
  exists m ts,
    fold_left groupStep l (Ok []) = Ok m /\
    grouped l m /\
    createTriangleTracks l = Ok ts /\
    Forall2 (fun entry t => trackOf entry = Ok t) m ts.
Proof.
  destruct (grouping_grouped l) as (m & Hm & Hg).
  destruct (createTriangleTracks_spec l) as (ts & Hts & _).
  exists m, ts. repeat split; try assumption; try apply Hg.
  apply tracksOf_entries.
  unfold createTriangleTracks in Hts. rewrite Hm in Hts. exact Hts.
Qed.

(** What each track of a run is made of. *)
Lemma createTriangleTracks_tracks (l : list TriangleAnnotation) :
  exists ts,
    createTriangleTracks l = Ok ts /\
    forall t, In t ts ->
      exists first rest,
        sortByStart (membersOf (triangleId t) l) = first :: rest /\
        track_annotations t = map toTimeline (first :: rest) /\
        track_color t = color first /\
        triangleLabel t = trackLabel first.
Proof.
  destruct (createTriangleTracks_run l) as (m & ts & _ & Hg & Hts & Hall).
  exists ts. split; [exact Hts|].
  intros t Ht.
  assert (Hentry : exists entry, In entry m /\ trackOf entry = Ok t).
  { clear - Hall Ht. induction Hall as [|entry t' m ts Het _ IH]; [destruct Ht|].
    destruct Ht as [->|Ht].
    - exists entry. split; [left; reflexivity | exact Het].
    - destruct (IH Ht) as (entry' & Hin & He). exists entry'. split; [right|]; assumption. }
  destruct Hentry as ([k v] & Hin & Het).
  destruct (@trackOf_first _ _ _ Het) as (first & rest & Hs & Hid & Hanns & Hcol & Hlab).
  rewrite (@grouped_entry _ _ _ _ Hg Hin) in Hs. rewrite Hid.
  exists first, rest. auto.
Qed.

(** X16: inside every track the records are in ascending order of start
    time, and the track takes its color and its label from the first of them,
    a record of the collection with the track's key that starts no later than
    any other record with that key. *)
Theorem createTriangleTracks_sorted :
  forall l : list TriangleAnnotation,
  exists ts,
    createTriangleTracks l = Ok ts /\
    forall t, In t ts ->
      ascending (map tl_start (track_annotations t)) /\
      exists first,
        hd_error (track_annotations t) = Some (toTimeline first) /\
        In first l /\ keyOf first = triangleId t /\
        (forall a, In a l -> keyOf a = triangleId t -> start first <= start a) /\
        track_color t = color first /\
        triangleLabel t = trackLabel first.
Proof.
  intro l. destruct (createTriangleTracks_tracks l) as (ts & Hts & Hall).
  exists ts. split; [exact Hts|].
  intros t Ht. destruct (Hall t Ht) as (first & rest & Hs & Hanns & Hcol & Hlab).
  pose proof (sortByStart_ascending (membersOf (triangleId t) l)) as Hasc.
  pose proof (sortByStart_perm (membersOf (triangleId t) l)) as Hperm.
  rewrite Hs in Hasc, Hperm.
  split; [rewrite Hanns, map_start_toTimeline; exact Hasc|].
  exists first. rewrite Hanns. split; [reflexivity|].
  assert (Hfirst : In first (membersOf (triangleId t) l)).
  { apply (Permutation_in first Hperm). left. reflexivity. }
  apply membersOf_In in Hfirst. destruct Hfirst as [Hin Hkey].
  repeat split; try assumption.
  intros a Ha Hk.
  assert (Hmem : In a (first :: rest)).
  { apply (Permutation_in a (Permutation_sym Hperm)). apply membersOf_In. auto. }
  destruct Hmem as [<-|Hrest]; [lra|].
  simpl in Hasc. destruct Hasc as [Hle _].
  apply (proj1 (Forall_forall _ _) Hle). apply in_map. exact Hrest.
Qed.

(** *** Nothing is lost *)

Lemma membersOf_other (k : string) (a : TriangleAnnotation) (l : list TriangleAnnotation) :
  keyOf a <> k -> membersOf k (a :: l) = membersOf k l.
Proof.
  intro Hne. unfold membersOf. simpl.
  apply String.eqb_neq in Hne. rewrite Hne. reflexivity.
Qed.

Lemma members_concat_other (ks : list string) (a : TriangleAnnotation)
    (l : list TriangleAnnotation) :
  ~ In (keyOf a) ks ->
  List.concat (map (fun k => membersOf k (a :: l)) ks)
  = List.concat (map (fun k => membersOf k l) ks).
Proof.
  induction ks as [|k ks IH]; intro Hnotin; cbn [map List.concat]; [reflexivity|].
  rewrite membersOf_other, IH; [reflexivity | |]; intro Hc; apply Hnotin; simpl; auto.
Qed.

(** Grouping by the keys is a partition of the collection. *)
Lemma members_partition (ks : list string) (l : list TriangleAnnotation) :
  NoDup ks ->
  (forall a, In a l -> In (keyOf a) ks) ->
  Permutation (List.concat (map (fun k => membersOf k l) ks)) l.
Proof.
  intros Hnd. induction l as [|a l IH]; intro Hcover.
  - clear. induction ks as [|k ks IH]; simpl; [constructor | exact IH].
  - destruct (in_split _ _ (Hcover a (or_introl eq_refl))) as (ks1 & ks2 & Hks).
    assert (Hnot : ~ In (keyOf a) ks1 /\ ~ In (keyOf a) ks2).
    { rewrite Hks in Hnd. apply NoDup_remove_2 in Hnd.
      split; intro Hc; apply Hnd; apply in_or_app; auto. }
    destruct Hnot as [Hn1 Hn2].
    specialize (IH (fun b Hb => Hcover b (or_intror Hb))).
    rewrite Hks in IH |- *.
    rewrite map_app, concat_app in IH |- *. cbn [map List.concat] in IH |- *.
    rewrite (@members_concat_other _ _ l Hn1), (@members_concat_other _ _ l Hn2).
    unfold membersOf at 2. cbn [filter]. rewrite String.eqb_refl.
    fold (membersOf (keyOf a) l).
    cbn [app]. symmetry. apply Permutation_cons_app. symmetry. exact IH.
Qed.

Lemma concat_perm {A} (ls ls' : list (list A)) :
  Forall2 (@Permutation A) ls ls' -> Permutation (List.concat ls) (List.concat ls').
Proof.
  induction 1 as [|l l' ls ls' Hl _ IH]; simpl; [constructor|].
  apply Permutation_app; assumption.
Qed.

(** X17: the tracks partition the collection: every track has at least one
    record, and the records of all tracks together are the records of the
    collection, each exactly as often as it occurs there. *)
Theorem createTriangleTracks_partition :
  forall l : list TriangleAnnotation,
  exists ts,
    createTriangleTracks l = Ok ts /\
    Forall (fun t => track_annotations t <> []) ts /\
    Permutation (List.concat (map track_annotations ts)) (map toTimeline l).
Proof.
  intro l.
  destruct (createTriangleTracks_spec l) as (ts & Hts & Hnd & Hkeys & Hall).
  exists ts. split; [exact Hts|]. split.
  - apply Forall_forall. intros t Ht Hnil.
    destruct (Hall t Ht) as (Hperm & first & Hin & Hkey & _).
    rewrite Hnil in Hperm. apply Permutation_nil in Hperm.
    assert (Hmem : In (toTimeline first) (map toTimeline (membersOf (triangleId t) l))).
    { apply in_map. apply membersOf_In. auto. }
    rewrite Hperm in Hmem. destruct Hmem.
  - transitivity (List.concat (map (fun t => map toTimeline (membersOf (triangleId t) l)) ts)).
    + apply concat_perm. clear - Hall.
      induction ts as [|t ts IH]; simpl; constructor.
      * apply Hall. left. reflexivity.
      * apply IH. intros t' Ht'. apply Hall. right. exact Ht'.
    + rewrite <- (map_map triangleId (fun k => map toTimeline (membersOf k l))).
      rewrite <- (map_map (fun k => membersOf k l) (map toTimeline)).
      rewrite <- concat_map. apply Permutation_map.
      apply members_partition; [exact Hnd|].
      intros a Ha. apply Hkeys. exists a. auto.
Qed.

(** *** The order of the tracks *)

Lemma existsb_eqb_In (k : string) (ks : list string) :
  existsb (String.eqb k) ks = true <-> In k ks.
Proof.
  rewrite existsb_exists. split.
  - intros (k' & Hin & He). apply String.eqb_eq in He. subst. exact Hin.
  - intro Hin. exists k. split; [exact Hin | apply String.eqb_refl].
Qed.

Lemma groupStep_keys (m m' : JsMap (list TriangleAnnotation)) (a : TriangleAnnotation) :
  groupStep (Ok m) a = Ok m' ->
  keys m' = if existsb (String.eqb (keyOf a)) (keys m) then keys m
            else (keys m ++ [keyOf a])%list.
Proof.
  unfold groupStep. cbn [bind].
  assert (Hex : existsb (String.eqb (keyOf a)) (keys m) = Map_has (keyOf a) m).
  { destruct (Map_has (keyOf a) m) eqn:Hhas.
    - apply existsb_eqb_In. apply Map_has_keys. exact Hhas.
    - destruct (existsb _ _) eqn:He; [|reflexivity].
      apply existsb_eqb_In in He. apply Map_has_keys in He. congruence. }
  rewrite Hex.
  destruct (Map_has (keyOf a) m) eqn:Hhas; cbn [negb].
  - destruct (Map_get (keyOf a) m) as [arr|]; [|discriminate].
    intros [= <-]. rewrite keys_set, Hhas. reflexivity.
  - rewrite Map_get_set, String.eqb_refl.
    intros [= <-]. rewrite keys_set.
    assert (Hhas' : Map_has (keyOf a) (Map_set (keyOf a) [] m) = true).
    { unfold Map_has. rewrite Map_get_set, String.eqb_refl. reflexivity. }
    rewrite Hhas', keys_set, Hhas. reflexivity.
Qed.

Lemma grouping_keys (l : list TriangleAnnotation) (m : JsMap (list TriangleAnnotation)) :
  fold_left groupStep l (Ok []) = Ok m -> keys m = firstSeen l.
Proof.
  unfold firstSeen. revert m.
  induction l as [|a l IH] using rev_ind; intros m Hm.
  - inversion Hm. reflexivity.
  - rewrite fold_left_app in Hm |- *. cbn [fold_left] in Hm |- *.
    destruct (fold_left groupStep l (Ok [])) as [m0|e] eqn:Hm0; [|discriminate].
    rewrite <- (@IH m0 eq_refl). apply groupStep_keys. exact Hm.
Qed.

(** X18: the tracks come in the order in which their keys are first seen in
    the collection, one track per key. *)
Theorem createTriangleTracks_first_seen :
  forall l : list TriangleAnnotation,
  exists ts,
    createTriangleTracks l = Ok ts /\
    map triangleId ts = firstSeen l.
Proof.
  intro l. destruct (createTriangleTracks_run l) as (m & ts & Hm & _ & Hts & Hall).
  exists ts. split; [exact Hts|].
  rewrite <- (@grouping_keys l m Hm). clear - Hall.
  induction Hall as [|[k v] t m ts Het _ IH]; [reflexivity|].
  destruct (@trackOf_first _ _ _ Het) as (_ & _ & _ & Hid & _).
  simpl. rewrite Hid, IH. reflexivity.
Qed.
(* ================================================================== *)
(** * More on the timeline: scrubbing, selecting, moving *)
(* ================================================================== *)

Lemma Math_max_1_pos (w : Q) : 0 < / Math_max 1 w.
Proof.
  apply Qinv_lt_0_compat. pose proof (Math_max_ge_l 1 w). lra.
Qed.

(** X19: the time under the pointer lies within [[0, duration]], does not
    decrease when the pointer moves right, and is the fraction of the bar left
    of the pointer times the duration while the pointer is over a bar at
    least one pixel wide. *)
Theorem xToTime_within :
  forall (props : TimelineProps) (clientX clientX' : Q) (rect : Rect),
    0 <= p_duration props ->
    0 <= xToTime props clientX rect <= p_duration props /\
    (clientX <= clientX' -> xToTime props clientX rect <= xToTime props clientX' rect) /\
    (1 <= rect_width rect ->
     rect_left rect <= clientX <= rect_left rect + rect_width rect ->
     xToTime props clientX rect
     == (clientX - rect_left rect) / rect_width rect * p_duration props).
Proof.
  intros props clientX clientX' rect Hd. unfold xToTime.
  pose proof (Math_max_1_pos (rect_width rect)) as Hinv.
  split; [|split].
  - split; [apply clamp_ge_min; exact Hd | apply clamp_le_max].
  - intro Hle. apply clamp_mono. unfold Qdiv.
    set (inv := / Math_max 1 (rect_width rect)) in *. clearbody inv.
    set (d := p_duration props) in *. clearbody d.
    assert (H1 : (clientX - rect_left rect) * inv <= (clientX' - rect_left rect) * inv)
      by nra.
    nra.
  - intros Hw [Hlo Hhi].
    destruct (Math_max_cases 1 (rect_width rect)) as [[_ Hm]|[Hlt _]]; [|lra].
    rewrite Hm in *. apply clamp_inside. unfold Qdiv.
    assert (Hone : rect_width rect * / rect_width rect == 1)
      by (apply Qmult_inv_r; lra).
    set (inv := / rect_width rect) in *. clearbody inv.
    set (d := p_duration props) in *. clearbody d.
    set (w := rect_width rect) in *. clearbody w.
    set (c := clientX - rect_left rect) in *.
    assert (Hc : 0 <= c <= w) by (unfold c; lra). clearbody c.
    assert (H0 : 0 <= c * inv) by nra.
    assert (H1 : c * inv <= 1) by nra.
    split; nra.
Qed.

Lemma xToTime_within_witness :
  let props := timelineProps defaultMinClipLen (exampleEditor 4 []) in
  0 <= p_duration props /\
  0 <= xToTime props 150 exampleRect <= p_duration props /\
  (150 <= 900 -> xToTime props 150 exampleRect <= xToTime props 900 exampleRect) /\
  (1 <= rect_width exampleRect ->
   rect_left exampleRect <= 150 <= rect_left exampleRect + rect_width exampleRect ->
   xToTime props 150 exampleRect
   == (150 - rect_left exampleRect) / rect_width exampleRect * p_duration props).
Proof.
  intro props.
  assert (Hd : 0 <= p_duration props) by (vm_compute; discriminate).
  split; [exact Hd|].
  exact (@xToTime_within props 150 900 exampleRect Hd).
Defined.

(** *** Scrubbing *)

Lemma clamp_idem (v lo hi : Q) : lo <= hi -> clamp (clamp v lo hi) lo hi == clamp v lo hi.
Proof.
  intro Hle. apply clamp_inside.
  split; [apply clamp_ge_min; exact Hle | apply clamp_le_max].
Qed.

Lemma onTimelineSeek_frame (t : Q) (ed : Editor) :
  selection (onTimelineSeek t ed) = selection ed /\
  annotations (onTimelineSeek t ed) = annotations ed.
Proof. unfold onTimelineSeek. destruct (videoRef ed); split; reflexivity. Qed.

Lemma seek_gesture_frame (minClipLen startX : Q) (moves : list (Rect * Q)) (ed : Editor) :
  selection (gesture minClipLen (DragSeek startX) moves ed) = selection ed /\
  annotations (gesture minClipLen (DragSeek startX) moves ed) = annotations ed.
Proof.
  unfold gesture. induction moves as [|mv moves IH] using rev_ind; [split; reflexivity|].
  rewrite fold_left_app. cbn [fold_left].
  set (ed1 := fold_left _ moves ed) in *.
  unfold timelinePointerMove, onScrubPointerMove. cbn [fold_left handle].
  destruct (onTimelineSeek_frame
              (xToTime (timelineProps minClipLen ed1) (snd mv) (fst mv)) ed1)
    as [Hs Ha].
  rewrite Hs, Ha. exact IH.
Qed.

(** X20: scrubbing follows the pointer.  With a video loaded, from the
    pointer-down on the scrub bar outside select mode through all moves of
    the gesture, the video position is the time under the last pointer
    position; play state, selection and records stay; once the pointer is up,
    moves change nothing. *)
Theorem scrub_follows_pointer :
  forall (minClipLen : Q) (rect : Rect) (clientX : Q) (drag : DragState)
         (ed : Editor) (video : Video) (moves : list (Rect * Q)),
    videoRef ed = Some video ->
    0 <= duration ed ->
    let down := timelinePointerDown minClipLen false (Some rect) clientX drag ed in
    let ed' := gesture minClipLen (snd down) moves (fst down) in
    let pointer := List.last moves (rect, clientX) in
    (exists video',
       videoRef ed' = Some video' /\
       v_currentTime video'
       == xToTime (timelineProps minClipLen ed) (snd pointer) (fst pointer) /\
       v_paused video' = v_paused video /\
       v_playbackRate video' = v_playbackRate video) /\
    selection ed' = selection ed /\
    annotations ed' = annotations ed /\
    forall container x,
      timelinePointerMove minClipLen (onScrubPointerUp (snd down)) container x ed' = ed'.
Proof.
  intros minClipLen rect clientX drag ed video moves Hv Hd. cbv zeta.
  unfold timelinePointerDown, onScrubPointerDown. cbn [fold_left handle fst snd].
  split; [|split; [|split]].
  - induction moves as [|mv moves IH] using rev_ind.
    + unfold gesture. cbn [fold_left List.last fst snd].
      unfold onTimelineSeek. rewrite Hv. eexists. split; [reflexivity|].
      cbn [v_currentTime v_paused v_playbackRate]. repeat split.
      apply clamp_idem. exact Hd.
    + destruct IH as (video1 & Hv1 & _ & Hp1 & Hr1).
      unfold gesture in *. rewrite fold_left_app. cbn [fold_left].
      rewrite last_last.
      set (ed1 := fold_left _ moves _) in *.
      assert (Hd1 : duration ed1 = duration ed).
      { unfold ed1.
        change (duration (gesture minClipLen (DragSeek clientX) moves
                            (onTimelineSeek
                               (xToTime (timelineProps minClipLen ed) clientX rect) ed))
                = duration ed).
        rewrite gesture_duration. unfold onTimelineSeek. rewrite Hv. reflexivity. }
      unfold timelinePointerMove, onScrubPointerMove. cbn [fold_left handle].
      unfold onTimelineSeek. rewrite Hv1. eexists. split; [reflexivity|].
      cbn [v_currentTime v_paused v_playbackRate].
      unfold xToTime. cbn [timelineProps p_duration]. rewrite Hd1.
      split; [apply clamp_idem; exact Hd | split; assumption].
  - rewrite (proj1 (seek_gesture_frame minClipLen clientX moves _)).
    apply onTimelineSeek_frame.
  - rewrite (proj2 (seek_gesture_frame minClipLen clientX moves _)).
    apply onTimelineSeek_frame.
  - intros container x. unfold timelinePointerMove, onScrubPointerMove, onScrubPointerUp.
    destruct container; reflexivity.
Qed.

Lemma scrub_follows_pointer_witness :
  let ed := exampleEditor 4 [] in
  let down := timelinePointerDown defaultMinClipLen false (Some exampleRect) 150
                                  DragNone ed in
  let ed' := gesture defaultMinClipLen (snd down) [(exampleRect, 300)] (fst down) in
  (exists video',
     videoRef ed' = Some video' /\
     v_currentTime video'
     == xToTime (timelineProps defaultMinClipLen ed) 300 exampleRect /\
     v_paused video' = v_paused exampleVideo /\
     v_playbackRate video' = v_playbackRate exampleVideo) /\
  selection ed' = selection ed /\
  annotations ed' = annotations ed /\
  forall container x,
    timelinePointerMove defaultMinClipLen (onScrubPointerUp (snd down)) container x ed'
    = ed'.
Proof.
  intros ed.
  apply (@scrub_follows_pointer defaultMinClipLen exampleRect 150 DragNone ed
           exampleVideo [(exampleRect, 300)]).
  - reflexivity.
  - vm_compute. discriminate.
Defined.

(** *** Selecting a range *)

(** X21: drawing a selection.  From the pointer-down on the scrub bar in
    select mode through all moves of the gesture, the selection is a range
    within [[0, duration]] that has the time under the pointer-down as one of
    its bounds; the records and the video are not touched. *)
Theorem select_range_gesture :
  forall (minClipLen : Q) (rect : Rect) (clientX : Q) (drag : DragState)
         (ed : Editor) (moves : list (Rect * Q)),
    0 <= duration ed ->
    let anchor := xToTime (timelineProps minClipLen ed) clientX rect in
    let down := timelinePointerDown minClipLen true (Some rect) clientX drag ed in
    let ed' := gesture minClipLen (snd down) moves (fst down) in
    (exists s e,
       selection ed' = Some (s, e) /\
       0 <= s /\ s <= anchor /\ anchor <= e /\ e <= duration ed /\
       (s = anchor \/ e = anchor)) /\
    (moves = [] -> selection ed' = Some (anchor, anchor)) /\
    annotations ed' = annotations ed /\
    videoRef ed' = videoRef ed.
Proof.
  intros minClipLen rect clientX drag ed moves Hd. cbv zeta.
  unfold timelinePointerDown, onScrubPointerDown. cbn [fold_left handle fst snd].
  set (anchor := xToTime (timelineProps minClipLen ed) clientX rect).
  assert (Hanchor : 0 <= anchor <= duration ed).
  { unfold anchor, xToTime. cbn [timelineProps p_duration].
    split; [apply clamp_ge_min; exact Hd | apply clamp_le_max]. }
  split; [|split; [|split]].
  - induction moves as [|mv moves IH] using rev_ind.
    + exists anchor, anchor. unfold gesture. cbn [fold_left selection setSelection].
      repeat split; try lra. left. reflexivity.
    + clear IH. unfold gesture. rewrite fold_left_app. cbn [fold_left].
      set (ed1 := fold_left _ moves _).
      assert (Hd1 : duration ed1 = duration ed).
      { unfold ed1.
        change (duration (gesture minClipLen (DragSelectRange clientX anchor) moves
                            (setSelection (Some (anchor, anchor)) ed))
                = duration ed).
        rewrite gesture_duration. reflexivity. }
      unfold timelinePointerMove, onScrubPointerMove.
      cbn [fold_left handle selection setSelection].
      set (t := xToTime (timelineProps minClipLen ed1) (snd mv) (fst mv)).
      assert (Ht : 0 <= t <= duration ed).
      { unfold t, xToTime. cbn [timelineProps p_duration]. rewrite Hd1.
        split; [apply clamp_ge_min; exact Hd | apply clamp_le_max]. }
      do 2 eexists. split; [reflexivity|].
      destruct (Math_min_cases anchor t) as [[H1 ->]|[H1 ->]];
        destruct (Math_max_cases anchor t) as [[H2 ->]|[H2 ->]];
        repeat split; try lra; auto.
  - intros ->. reflexivity.
  - induction moves as [|mv moves IH] using rev_ind; [reflexivity|].
    unfold gesture in *. rewrite fold_left_app. cbn [fold_left].
    unfold timelinePointerMove, onScrubPointerMove. cbn [fold_left handle].
    exact IH.
  - induction moves as [|mv moves IH] using rev_ind; [reflexivity|].
    unfold gesture in *. rewrite fold_left_app. cbn [fold_left].
    unfold timelinePointerMove, onScrubPointerMove. cbn [fold_left handle].
    exact IH.
Qed.

Lemma select_range_gesture_witness :
  let ed := exampleEditor 4 [] in
  let anchor := xToTime (timelineProps defaultMinClipLen ed) 300 exampleRect in
  let down := timelinePointerDown defaultMinClipLen true (Some exampleRect) 300
                                  DragNone ed in
  let ed' := gesture defaultMinClipLen (snd down)
                     [(exampleRect, 450); (exampleRect, 120)] (fst down) in
  (exists s e,
     selection ed' = Some (s, e) /\
     0 <= s /\ s <= anchor /\ anchor <= e /\ e <= duration ed /\
     (s = anchor \/ e = anchor)) /\
  (@eq (list (Rect * Q)) [(exampleRect, 450); (exampleRect, 120)] [] ->
   selection ed' = Some (anchor, anchor)) /\
  annotations ed' = annotations ed /\
  videoRef ed' = videoRef ed.
Proof.
  intros ed.
  apply (@select_range_gesture defaultMinClipLen exampleRect 300 DragNone ed
           [(exampleRect, 450); (exampleRect, 120)]).
  vm_compute. discriminate.
Defined.

(** *** Moving a range *)


(* ================================================================== *)
(** * Preview and export *)
(* ================================================================== *)

(** ** Stepping through the frames *)

(** X23: with [n] frames and the preview on one of them, ArrowLeft and
    ArrowRight keep the index on a frame, wrap around at both ends, and undo
    each other. *)
Theorem preview_steps_cycle :
  forall framesLength i : Z,
    (0 <= i < framesLength)%Z ->
    (0 <= previewPrev framesLength i < framesLength)%Z /\
    (0 <= previewNext framesLength i < framesLength)%Z /\
    previewNext framesLength (previewPrev framesLength i) = i /\
    previewPrev framesLength (previewNext framesLength i) = i /\
    previewPrev framesLength 0 = (framesLength - 1)%Z /\
    previewNext framesLength (framesLength - 1) = 0%Z.
Proof.
  intros n i Hi.
  assert (Hn : (n =? 0)%Z = false) by (apply Z.eqb_neq; lia).
  assert (Hprev : forall j, (0 <= j < n)%Z ->
            previewPrev n j = if (j =? 0)%Z then (n - 1)%Z else (j - 1)%Z).
  { intros j Hj. unfold previewPrev. rewrite Hn.
    rewrite Z.rem_mod_nonneg by lia.
    destruct (Z.eqb_spec j 0) as [->|Hne].
    - rewrite Z.mod_small by lia. lia.
    - replace (j - 1 + n)%Z with (j - 1 + 1 * n)%Z by lia.
      rewrite Z_mod_plus_full. apply Z.mod_small. lia. }
  assert (Hnext : forall j, (0 <= j < n)%Z ->
            previewNext n j = if (j =? n - 1)%Z then 0%Z else (j + 1)%Z).
  { intros j Hj. unfold previewNext. rewrite Hn.
    rewrite Z.rem_mod_nonneg by lia.
    destruct (Z.eqb_spec j (n - 1)) as [->|Hne].
    - replace (n - 1 + 1)%Z with n by lia. apply Z_mod_same_full.
    - apply Z.mod_small. lia. }
  assert (Hp : (0 <= previewPrev n i < n)%Z).
  { rewrite (Hprev i Hi). destruct (Z.eqb_spec i 0); lia. }
  assert (Hx : (0 <= previewNext n i < n)%Z).
  { rewrite (Hnext i Hi). destruct (Z.eqb_spec i (n - 1)); lia. }
  split; [exact Hp|]. split; [exact Hx|]. repeat split.
  - rewrite (Hnext _ Hp), (Hprev i Hi).
    destruct (Z.eqb_spec i 0) as [->|Hne].
    + rewrite Z.eqb_refl. reflexivity.
    + destruct (Z.eqb_spec (i - 1) (n - 1)); lia.
  - rewrite (Hprev _ Hx), (Hnext i Hi).
    destruct (Z.eqb_spec i (n - 1)) as [->|Hne].
    + rewrite Z.eqb_refl. reflexivity.
    + destruct (Z.eqb_spec (i + 1) 0); lia.
  - rewrite Hprev by lia. reflexivity.
  - rewrite Hnext by lia. rewrite Z.eqb_refl. reflexivity.
Qed.

Lemma preview_steps_cycle_witness :
  (0 <= 0 < 3)%Z /\
  (0 <= previewPrev 3 0 < 3)%Z /\
  (0 <= previewNext 3 0 < 3)%Z /\
  previewNext 3 (previewPrev 3 0) = 0%Z /\
  previewPrev 3 (previewNext 3 0) = 0%Z /\
  previewPrev 3 0 = (3 - 1)%Z /\
  previewNext 3 (3 - 1) = 0%Z.
Proof.
  assert (Hi : (0 <= 0 < 3)%Z) by lia.
  split; [exact Hi|].
  exact (@preview_steps_cycle 3 0 Hi).
Defined.

(** ** Adding the uploaded images to the dataset *)

Lemma slice_chunk {A} (i : nat) (l : list A) :
  slice i (i + chunkSize) l = firstn chunkSize (skipn i l).
Proof.
  unfold slice. replace (i + chunkSize - i)%nat with chunkSize by lia. reflexivity.
Qed.

Lemma chunkLoop_chunks (binaryIds : list string) (fuel i : nat) (sent : list (list string)) :
  (List.length binaryIds - i < fuel)%nat ->
  exists rest,
    chunkLoop fuel i binaryIds sent = Some (sent ++ rest)%list /\
    List.concat rest = skipn i binaryIds /\
    Forall (fun chunk => (1 <= List.length chunk <= chunkSize)%nat) rest /\
    (List.length rest * chunkSize < List.length binaryIds - i + chunkSize)%nat.
Proof.
  revert i sent. induction fuel as [|fuel IH]; intros i sent Hfuel; [lia|].
  cbn [chunkLoop].
  destruct (Nat.ltb_spec i (List.length binaryIds)) as [Hlt|Hge].
  - destruct (IH (i + chunkSize)%nat
                 (sent ++ [slice i (i + chunkSize) binaryIds])%list)
      as (rest & Hrun & Hcat & Hall & Hcount).
    { unfold chunkSize. lia. }
    exists (slice i (i + chunkSize) binaryIds :: rest).
    split; [rewrite Hrun, <- app_assoc; reflexivity|].
    split; [|split].
    + cbn [List.concat]. rewrite Hcat, slice_chunk.
      rewrite Nat.add_comm, <- skipn_skipn. apply firstn_skipn.
    + constructor; [|exact Hall].
      rewrite slice_chunk, length_firstn, length_skipn. unfold chunkSize. lia.
    + cbn [List.length]. unfold chunkSize in *. lia.
  - exists []. rewrite app_nil_r. split; [reflexivity|].
    split; [|split].
    + rewrite skipn_all2 by lia. reflexivity.
    + constructor.
    + cbn [List.length]. unfold chunkSize. lia.
Qed.

(** X24: the ids of the uploaded images reach the dataset in chunks that,
    put together in order, are exactly the list of ids; every chunk has
    between 1 and 50 ids, and there are no more chunks than needed; the loop
    ends after at most as many rounds as there are ids, plus one. *)
Theorem datasetChunks_cover :
  forall (fuel : nat) (binaryIds : list string),
    (List.length binaryIds < fuel)%nat ->
    exists chunks,
      datasetChunks fuel binaryIds = Some chunks /\
      List.concat chunks = binaryIds /\
      Forall (fun chunk => (1 <= List.length chunk <= chunkSize)%nat) chunks /\
      (List.length chunks * chunkSize < List.length binaryIds + chunkSize)%nat.
Proof.
  intros fuel binaryIds Hfuel. unfold datasetChunks.
  destruct (@chunkLoop_chunks binaryIds fuel 0 []) as (rest & Hrun & Hcat & Hall & Hn);
    [lia|].
  exists rest. rewrite Nat.sub_0_r in Hn. auto.
Qed.

Lemma datasetChunks_cover_witness :
  let binaryIds := map (fun i => showZ (Z.of_nat i)) (seq 0 120) in
  (List.length binaryIds < 121)%nat /\
  exists chunks,
    datasetChunks 121 binaryIds = Some chunks /\
    List.concat chunks = binaryIds /\
    Forall (fun chunk => (1 <= List.length chunk <= chunkSize)%nat) chunks /\
    (List.length chunks * chunkSize < List.length binaryIds + chunkSize)%nat.
Proof.
  intro binaryIds.
  assert (Hfuel : (List.length binaryIds < 121)%nat).
  { unfold binaryIds. rewrite length_map, length_seq. lia. }
  split; [exact Hfuel|].
  exact (@datasetChunks_cover 121 binaryIds Hfuel).
Defined.

(** The 120 ids of the example go out as chunks of 50, 50 and 20. *)
Example datasetChunks_120 :
  option_map (map (@List.length string))
             (datasetChunks 121 (map (fun i => showZ (Z.of_nat i)) (seq 0 120)))
  = Some [50; 50; 20]%nat.
Proof. vm_compute. reflexivity. Qed.

(** ** The names of the files in the zip *)

Lemma append_inv_head (s a b : string) : s ++ a = s ++ b -> a = b.
Proof.
  induction s as [|c s IH]; simpl; intro He; [exact He|].
  inversion He. apply IH. assumption.
Qed.

Lemma hasUnderscore_app (a b : string) :
  hasUnderscore (a ++ b) = hasUnderscore a || hasUnderscore b.
Proof.
  induction a as [|c a IH]; simpl; [reflexivity|].
  rewrite IH. apply orb_assoc.
Qed.

Lemma zeros_plain (k : nat) : hasUnderscore (zeros k) = false.
Proof. induction k as [|k IH]; simpl; [reflexivity | exact IH]. Qed.

Lemma padStart_plain (n : nat) (s : string) :
  hasUnderscore s = false -> hasUnderscore (padStart n s) = false.
Proof.
  intro Hs. unfold padStart. rewrite hasUnderscore_app, zeros_plain, Hs. reflexivity.
Qed.

(** The decimal digits of a positive number do not begin with 0. *)
Lemma to_uint_no_leading_zero (p : positive) (d : Decimal.uint) :
  Pos.to_uint p <> Decimal.D0 d.
Proof.
  intro He.
  assert (Hnorm : Decimal.unorm (Pos.to_uint p) = Pos.to_uint p).
  { rewrite <- DecimalPos.Unsigned.to_of, DecimalPos.Unsigned.of_to. reflexivity. }
  rewrite He in Hnorm. unfold Decimal.unorm in Hnorm.
  destruct (Decimal.nzhead (Decimal.D0 d)) eqn:Hnz;
    try (rewrite <- Hnz in Hnorm; exact (DecimalFacts.nzhead_nonzero _ _ Hnorm)).
  apply (DecimalPos.Unsigned.to_uint_nonzero p).
  rewrite He, <- Hnorm. reflexivity.
Qed.

Lemma string_of_uint_leading (d : Decimal.uint) :
  leadingZero (NilEmpty.string_of_uint d) = true -> exists d', d = Decimal.D0 d'.
Proof.
  destruct d; simpl; try discriminate. eauto.
Qed.

(** A non-negative integer is rendered without leading zeros and not as the
    empty text. *)
Lemma showZ_numeral (z : Z) :
  (0 <= z)%Z ->
  showZ z <> "" /\ (leadingZero (showZ z) = true -> showZ z = "0").
Proof.
  intro Hz. unfold showZ. destruct z as [|p|p]; [| |lia].
  - simpl. split; [discriminate | reflexivity].
  - simpl. pose proof (DecimalPos.Unsigned.to_uint_nonnil p) as Hnil.
    pose proof (to_uint_no_leading_zero p) as Hlead.
    destruct (Pos.to_uint p) eqn:E; try congruence.
    all: split; [simpl; discriminate|].
    all: intro Hl; apply string_of_uint_leading in Hl; destruct Hl as (d' & Hd');
      exfalso; exact (Hlead d' Hd').
Qed.

Lemma zeros_cancel (k k' : nat) (s t : string) :
  (k <= k')%nat -> zeros k ++ s = zeros k' ++ t -> s = zeros (k' - k) ++ t.
Proof.
  revert k'. induction k as [|k IH]; intros k' Hle He.
  - rewrite Nat.sub_0_r. exact He.
  - destruct k' as [|k']; [lia|]. simpl in He. inversion He.
    apply IH; [lia | assumption].
Qed.

Lemma padded_numeral (j : nat) (s t : string) :
  t <> "" -> (leadingZero s = true -> s = "0") -> s = zeros j ++ t -> s = t.
Proof.
  intros Ht Hs He. destruct j as [|j]; [exact He|].
  assert (Hz : s = "0") by (apply Hs; rewrite He; reflexivity).
  rewrite Hz in He. simpl in He. inversion He as [Hrest].
  destruct j; simpl in Hrest; [|discriminate].
  exfalso. apply Ht. symmetry. exact Hrest.
Qed.

Lemma padStart_inj (n : nat) (z z' : Z) :
  (0 <= z)%Z -> (0 <= z')%Z ->
  padStart n (showZ z) = padStart n (showZ z') -> z = z'.
Proof.
  intros Hz Hz' He. apply showZ_inj.
  destruct (showZ_numeral Hz) as [Hne Hlead].
  destruct (showZ_numeral Hz') as [Hne' Hlead'].
  unfold padStart in He.
  destruct (Nat.le_ge_cases (n - String.length (showZ z))
                            (n - String.length (showZ z'))) as [Hle|Hle].
  - apply (zeros_cancel _ _ Hle) in He.
    exact (padded_numeral _ Hne' Hlead He).
  - symmetry in He. apply (zeros_cancel _ _ Hle) in He.
    symmetry. exact (padded_numeral _ Hne Hlead' He).
Qed.

Lemma frameFileName_index (seqTag : string) (f g : FrameInfo) :
  frameFileName seqTag f = frameFileName seqTag g -> index f = index g.
Proof.
  unfold frameFileName. intro He.
  apply append_inv_head in He.
  change ("_" ++ ?r) with (String "_" r) in He. inversion He as [Hrest]. clear He.
  apply split_at_underscore in Hrest;
    try (apply padStart_plain; apply showZ_plain).
  destruct Hrest as [Hpad _].
  apply padStart_inj in Hpad; lia.
Qed.

(** X25: the files of one zip do not overwrite each other: frames with
    different indices get different names, and no frame gets the name of the
    metadata file. *)
Theorem downloadZip_names_distinct :
  forall (seqTag : string) (frames : list FrameInfo),
    NoDup (map index frames) ->
    NoDup (metadataFileName seqTag :: map (frameFileName seqTag) frames).
Proof.
  intros seqTag frames Hnd. constructor.
  - intro Hin. apply in_map_iff in Hin. destruct Hin as (f & He & _).
    unfold frameFileName, metadataFileName in He.
    apply append_inv_head in He. inversion He as [Hrest].
    apply (f_equal hasUnderscore) in Hrest.
    rewrite hasUnderscore_app in Hrest. simpl in Hrest.
    rewrite orb_true_r in Hrest. discriminate.
  - induction frames as [|f frames IH]; simpl; [constructor|].
    inversion Hnd as [|? ? Hnotin Hnd']; subst.
    constructor; [|apply IH; exact Hnd'].
    intro Hin. apply in_map_iff in Hin. destruct Hin as (g & He & Hg).
    apply Hnotin. rewrite <- (frameFileName_index _ _ _ He).
    apply in_map. exact Hg.
Qed.

Lemma downloadZip_names_distinct_witness :
  let f0 := exampleFrame in
  let f1 := {| index := 1; time := 5 # 2; blob := blob exampleFrame;
               objectUrl := "blob:1" |} in
  NoDup (map index [f0; f1]) /\
  NoDup (metadataFileName "sequence_7" :: map (frameFileName "sequence_7") [f0; f1]).
Proof.
  intros f0 f1.
  assert (Hnd : NoDup (map index [f0; f1])).
  { repeat constructor; simpl; intuition discriminate. }
  split; [exact Hnd|].
  exact (@downloadZip_names_distinct "sequence_7" [f0; f1] Hnd).
Defined.

Example frameFileName_example :
  frameFileName "sequence_7"
    {| index := 1; time := 5 # 2; blob := blob exampleFrame; objectUrl := "blob:1" |}
  = "sequence_7_0001_2.500s.jpg".
Proof. vm_compute. reflexivity. Qed.
(* ================================================================== *)
(** * Time labels *)
(* ================================================================== *)








Example formatTime_example :
  formatTime (7325 + (1 # 4)) = "02:02:05.250" /\
  formatTime (59 + (999 # 1000)) = "00:59.999".
Proof. split; vm_compute; reflexivity. Qed.

(** X27: a negative time is labelled as zero. *)
Theorem formatTime_negative :
  forall t : Q, t < 0 -> formatTime t = "00:00.000".
Proof.
  intros t Ht. unfold formatTime.
  assert (Hneg : Qltb t 0 = true) by (apply Qltb_true; exact Ht).
  rewrite Hneg. vm_compute. reflexivity.
Qed.

Lemma formatTime_negative_witness :
  - (5 # 2) < 0 /\ formatTime (- (5 # 2)) = "00:00.000".
Proof.
  assert (Ht : - (5 # 2) < 0) by reflexivity.
  split; [exact Ht|].
  exact (@formatTime_negative (- (5 # 2)) Ht).
Defined.
(* ================================================================== *)
(** * Invariants of the collection *)
(* ================================================================== *)

(** Deleting records keeps what was distinct about them distinct. *)
Lemma NoDup_map_filter {K} (view : TriangleAnnotation -> K)
    (keep : TriangleAnnotation -> bool) (annos : list TriangleAnnotation) :
  NoDup (map view annos) -> NoDup (map view (filter keep annos)).
Proof.
  intro Hnd. induction annos as [|a annos IH]; simpl in *; [constructor|].
  inversion Hnd as [|? ? Hnotin Hnd']; subst.
  destruct (keep a); simpl; [|apply IH; exact Hnd'].
  constructor; [|apply IH; exact Hnd'].
  intro Hin. apply Hnotin. apply in_map_iff in Hin.
  destruct Hin as (b & Hb & Hin). apply filter_In in Hin.
  apply in_map_iff. exists b. tauto.
Qed.

Lemma NoDup_map_snoc {A B} (f : A -> B) (l : list A) (a : A) :
  NoDup (map f l) -> ~ In (f a) (map f l) -> NoDup (map f (l ++ [a])).
Proof.
  intros Hnd Hnotin. rewrite map_app. simpl.
  apply NoDup_app; [exact Hnd | repeat constructor; intros [] |].
  intros b Hb [<-|[]]. exact (Hnotin Hb).
Qed.

Lemma map_map_same {A B} (f : A -> B) (g : A -> A) (l : list A) :
  (forall a, f (g a) = f a) -> map f (map g l) = map f l.
Proof.
  intro Hfg. rewrite map_map. apply map_ext. exact Hfg.
Qed.

(** X28: the handlers of the store never give two records the same id:
    creation with an id not in use, deletion, changes of the time range, of
    size and color, and drag steps all keep the ids distinct, and all but
    creation and deletion keep the list of ids as it is. *)
Theorem ids_stay_distinct :
  forall ed : Editor,
    NoDup (map id (annotations ed)) ->
    (forall uuid xNorm yNorm,
        ~ In uuid (map id (annotations ed)) ->
        NoDup (map id (annotations (addAnnotationAt uuid xNorm yNorm ed)))) /\
    NoDup (map id (annotations (removeSelected ed))) /\
    (forall target nextStart nextEnd,
        map id (annotations (updateAnnoTime target nextStart nextEnd ed))
        = map id (annotations ed)) /\
    (forall newSize newColor,
        map id (annotations (updateSelectedSpatial newSize newColor ed))
        = map id (annotations ed)) /\
    (forall layer clientX clientY flag dragged ov',
        onAnnoPointerMove layer clientX clientY
          {| editor := ed; suppressClick := flag; draggingAnnoId := dragged |} = Ok ov' ->
        map id (annotations (editor ov')) = map id (annotations ed)).
Proof.
  intros ed Hnd. repeat split.
  - intros uuid xNorm yNorm Hfresh.
    destruct (addAnnotationAt_annotations uuid xNorm yNorm ed)
      as [->|(anno & -> & Hid & _)]; [exact Hnd|].
    apply NoDup_map_snoc; [exact Hnd|]. rewrite Hid. exact Hfresh.
  - unfold removeSelected. destruct (truthy (selectedId ed)); [|exact Hnd].
    simpl. apply NoDup_map_filter. exact Hnd.
  - intros target nextStart nextEnd. unfold updateAnnoTime. simpl.
    apply map_map_same. intro a. destruct (String.eqb (id a) target); reflexivity.
  - intros newSize newColor. unfold updateSelectedSpatial.
    destruct (truthy (selectedId ed)) as [sel|]; [|reflexivity].
    simpl. apply map_map_same. intro a. destruct (String.eqb (id a) sel); reflexivity.
  - intros layer clientX clientY flag dragged ov' Hmove.
    destruct (onAnnoPointerMove_spec _ _ _ _ Hmove)
      as [->|(d & x' & y' & _ & _ & _ & ->)]; [reflexivity|].
    simpl. apply map_map_same. intro a. destruct (String.eqb (id a) d); reflexivity.
Qed.

Lemma ids_stay_distinct_witness :
  let ed := exampleEditor 4 [exampleAnnotation "a1" (1 # 2) (1 # 5) 2 5;
                             exampleAnnotation "a2" (1 # 4) (1 # 5) 0 3] in
  NoDup (map id (annotations ed)) /\
  NoDup (map id (annotations (removeSelected ed))).
Proof.
  intro ed.
  assert (Hnd : NoDup (map id (annotations ed))).
  { repeat constructor; simpl; intuition discriminate. }
  split; [exact Hnd|].
  exact (proj1 (proj2 (@ids_stay_distinct ed Hnd))).
Defined.

(** X29: creation, deletion and changes of the time range never put two
    records on the same key (rounded position and color), so that, as long as
    only these happen, every track has one record. *)
Theorem keys_stay_distinct :
  forall ed : Editor,
    NoDup (map keyOf (annotations ed)) ->
    (forall uuid xNorm yNorm,
        NoDup (map keyOf (annotations (addAnnotationAt uuid xNorm yNorm ed)))) /\
    NoDup (map keyOf (annotations (removeSelected ed))) /\
    (forall target nextStart nextEnd,
        map keyOf (annotations (updateAnnoTime target nextStart nextEnd ed))
        = map keyOf (annotations ed)).
Proof.
  intros ed Hnd. repeat split.
  - intros uuid xNorm yNorm. unfold addAnnotationAt.
    destruct (find _ (annotations ed)) as [existing|] eqn:Hfind; [exact Hnd|].
    simpl. apply NoDup_map_snoc; [exact Hnd|].
    intro Hin. apply in_map_iff in Hin. destruct Hin as (b & Hkey & Hb).
    apply (find_none _ _ Hfind) in Hb. cbv beta in Hb.
    apply String.eqb_neq in Hb. apply Hb. exact Hkey.
  - unfold removeSelected. destruct (truthy (selectedId ed)); [|exact Hnd].
    simpl. apply NoDup_map_filter. exact Hnd.
  - intros target nextStart nextEnd. unfold updateAnnoTime. simpl.
    apply map_map_same. intro a. destruct (String.eqb (id a) target); reflexivity.
Qed.

Lemma keys_stay_distinct_witness :
  let ed := exampleEditor 4 [exampleAnnotation "a1" (1 # 2) (1 # 5) 2 5;
                             exampleAnnotation "a2" (1 # 4) (1 # 5) 0 3] in
  NoDup (map keyOf (annotations ed)) /\
  NoDup (map keyOf (annotations (addAnnotationAt "u1" (3 # 4) (1 # 5) ed))).
Proof.
  intro ed.
  assert (Hnd : NoDup (map keyOf (annotations ed))).
  { repeat constructor; simpl; intuition discriminate. }
  split; [exact Hnd|].
  exact (proj1 (@keys_stay_distinct ed Hnd) "u1" (3 # 4) (1 # 5)).
Defined.

(** A drag step is not among them: dropping one triangle on another gives two
    records with one key. *)
Example drag_can_share_a_key :
  let layer := {| layer_left := 0; layer_top := 0;
                  layer_width := 800; layer_height := 450 |} in
  let ov := onAnnoPointerDown "a2"
              {| editor := exampleEditor 4 [exampleAnnotation "a1" (1 # 2) (1 # 5) 2 5;
                                            exampleAnnotation "a2" (1 # 4) (1 # 5) 0 3];
                 suppressClick := false; draggingAnnoId := None |} in
  (let* ov' := onAnnoPointerMove (Some layer) 400 90 ov in
   Ok (map keyOf (annotations (editor ov'))))
  = Ok ["50_20_#c0c5ce"; "50_20_#c0c5ce"].
Proof. vm_compute. reflexivity. Qed.
(* ================================================================== *)
(** * Object URLs *)
(* ================================================================== *)




